(** * mexca: data containers, serialisation and the feature merge

    A shallow embedding of [mexca/data.py]: the annotation containers
    ([VideoAnnotation], [VoiceFeatures], [SpeakerAnnotation],
    [AudioTranscription], [SentimentAnnotation]), their JSON and RTTM
    serialisation, and [Multimodal.merge_features].

    Conventions of the model.
    - Python floats are exact rationals ([Q]); binary rounding of
      [float]/[numpy.float32] is not modelled.
    - Exceptions are values of [exn]; a function that may raise returns
      [result].
    - The libraries the module calls ([json], [numpy.arange],
      [pandas.DataFrame], [pandas.merge], [intervaltree]) are modelled by
      their documented behaviour on the inputs [data.py] gives them. *)

From Stdlib Require Import ZArith QArith Qround List Ascii String Lia Lqa.
From stdpp Require Import base option list strings pretty gmap fin_maps.

Local Open Scope Z_scope.

(** ** Exceptions *)

Inductive exn : Type :=
| TypeError
| ValueError
| KeyError
| IndexError
| AttributeError
| ZeroDivisionError.

Inductive result (A : Type) : Type :=
| Ok (a : A)
| Raise (e : exn).
Arguments Ok {A} a.
Arguments Raise {A} e.

#[global] Instance result_ret : MRet result := fun A a => Ok a.

#[global] Instance result_bind : MBind result := fun A B k r =>
  match r with
  | Ok a => k a
  | Raise e => Raise e
  end.

Definition is_ok {A : Type} (r : result A) : bool :=
  match r with Ok _ => true | Raise _ => false end.

(** ** numpy.arange

    [numpy.arange(start, stop, step)] has [ceil((stop - start) / step)]
    elements (none when that is not positive).  With a floating dtype
    element [i] is [start + i * step].  With an integer dtype the array is
    filled from its first two entries, so the step actually used is
    [dtype(start + step) - dtype(start)]; entries are 32-bit and wrap. *)

Definition arange_len (start stop step : Q) : nat :=
  Z.to_nat (Qceiling ((stop - start) / step)%Q).

Definition arange_float32 (start stop step : Q) : list Q :=
  map (fun i : nat => (start + inject_Z (Z.of_nat i) * step)%Q)
      (seq 0 (arange_len start stop step)).

(** Conversion of a float to a C integer drops the fractional part. *)
Definition Qtruncate (q : Q) : Z := Z.quot (Qnum q) (Zpos (Qden q)).

Definition wrap_int32 (z : Z) : Z :=
  (z + 2 ^ 31) mod 2 ^ 32 - 2 ^ 31.

Definition arange_int32 (start stop step : Q) : list Z :=
  let first := wrap_int32 (Qtruncate start) in
  let delta := wrap_int32 (Qtruncate (start + step)%Q) - first in
  map (fun i : nat => wrap_int32 (first + Z.of_nat i * delta))
      (seq 0 (arange_len start stop step)).

(** ** The frame and time axes of the audio/text merge
    ([Multimodal._merge_audio_text_features], the two [np.arange] lines) *)

Definition time_axis (duration fps_adjusted : Q) : list Q :=
  arange_float32 0 duration (1 / fps_adjusted)%Q.

Definition frame_axis (duration fps fps_adjusted : Q) : list Z :=
  arange_int32 0 (duration * fps)%Q fps_adjusted.

(** The frame axis as the specification words it: [i * (fps / fps_adjusted)]
    rounded to the nearest integer, for [i] below
    [floor (duration * fps_adjusted)]. *)

Definition Qround_nearest (q : Q) : Z := Qfloor (q + (1 # 2))%Q.

Definition spec_frame_axis (duration fps fps_adjusted : Q) : list Z :=
  map (fun i : nat => Qround_nearest (inject_Z (Z.of_nat i) * (fps / fps_adjusted))%Q)
      (seq 0 (Z.to_nat (Qfloor (duration * fps_adjusted)%Q))).

(** ** Python values

    The values that column lists and JSON documents hold. *)

#[local] Set Warnings "-register-all".

Inductive pyval : Type :=
| PNone
| PNaN
| PInt (z : Z)
| PFloat (q : Q)
| PStr (s : string)
| PList (l : list pyval)
| PDict (d : list (string * pyval)).

(** [==] on the scalars that [data.py] compares (span and sentiment
    indices, join keys); [nan] equals nothing. *)
Definition py_eqb (a b : pyval) : bool :=
  match a, b with
  | PNone, PNone => true
  | PInt x, PInt y => x =? y
  | PFloat x, PFloat y => Qeq_bool x y
  | PInt x, PFloat y => Qeq_bool (inject_Z x) y
  | PFloat x, PInt y => Qeq_bool x (inject_Z y)
  | PStr x, PStr y => String.eqb x y
  | _, _ => false
  end.

(** [d[k]] on a Python dict.  A dict built from a list of pairs keeps,
    for a key given twice, the value given last. *)
Fixpoint dict_get (k : string) (d : list (string * pyval)) : result pyval :=
  match d with
  | [] => Raise KeyError
  | (k', v) :: d' =>
      match dict_get k d' with
      | Ok w => Ok w
      | Raise _ => if String.eqb k k' then Ok v else Raise KeyError
      end
  end.

(** [v[k]] with a string key: a dict is looked up, anything else is not
    subscriptable by a string. *)
Definition py_getitem (v : pyval) (k : string) : result pyval :=
  match v with
  | PDict d => dict_get k d
  | _ => Raise TypeError
  end.

(** ** JSON files

    The content of a file, as [json.dump] writes it and [json.load] reads
    it: a tree of JSON values, an object holding its members in the order
    of the text, a key possibly more than once.  [allow_nan=True] writes
    a [nan] as the token [NaN], which is read as a [nan]; a number
    without fraction is read as an int, any other as a float.  The
    lexical layer (white space, escapes in strings, the digits of a
    float, which [repr] prints so that reading gives the same float) is
    not modelled. *)

Inductive json : Type :=
| JNull
| JNaN
| JInt (z : Z)
| JFloat (q : Q)
| JString (s : string)
| JArray (elements : list json)
| JObject (members : list (string * json)).

(** What [json.dump] writes for a value. *)
Fixpoint json_of_py (v : pyval) : json :=
  match v with
  | PNone => JNull
  | PNaN => JNaN
  | PInt z => JInt z
  | PFloat q => JFloat q
  | PStr s => JString s
  | PList l => JArray (map json_of_py l)
  | PDict d => JObject (map (fun kv => (fst kv, json_of_py (snd kv))) d)
  end.

(** What [json.load] makes of a value. *)
Fixpoint py_of_json (j : json) : pyval :=
  match j with
  | JNull => PNone
  | JNaN => PNaN
  | JInt z => PInt z
  | JFloat q => PFloat q
  | JString s => PStr s
  | JArray l => PList (map py_of_json l)
  | JObject d => PDict (map (fun kv => (fst kv, py_of_json (snd kv))) d)
  end.

(** ** The per-frame containers

    A record file is a JSON object [{field_name: [values...]}], every
    member an array; the document [json.load] returns for it is a dict
    from keys to lists. *)

Abbreviation json_file := (list (string * list json)).

Abbreviation json_record := (gmap string (list pyval)).

(** [json.dump] of the dict that [asdict] returns, whose items come in
    field order. *)
Definition json_dump (items : list (string * list pyval)) : json_file :=
  map (fun kv => (fst kv, map json_of_py (snd kv))) items.

(** [dict(pairs)]: the pairs are put into the dict one after the other,
    so that of two pairs with one key the later stays. *)
Definition py_dict (pairs : list (string * list pyval)) : json_record :=
  fold_left (fun (data : json_record) (kv : string * list pyval) =>
               <[fst kv := snd kv]> data)
            pairs ∅.

(** [json.load]: the dict of the members read. *)
Definition json_load (file : json_file) : json_record :=
  py_dict (map (fun kv => (fst kv, map py_of_json (snd kv))) file).

(** [{k: v for k, v in data.items() if k in field_names}] *)
Definition filter_fields (field_names : list string) (data : json_record)
  : json_record :=
  filter (fun kv : string * list pyval => kv.1 ∈ field_names) data.

(** The class called with a dict as its keywords: the generated
    [__init__] of a dataclass takes its fields as keywords and nothing
    else; a keyword that is no field is a [TypeError]. *)
Definition known_kwargs (field_names : list string) (kwargs : json_record)
  : bool :=
  bool_decide (map_Forall (fun k (_ : list pyval) => k ∈ field_names) kwargs).

(** A keyword argument with [default_factory=list]. *)
Definition kwarg_default (data : json_record) (k : string) : list pyval :=
  default [] (data !! k).

(** A keyword argument without a default. *)
Definition kwarg_required (data : json_record) (k : string)
  : result (list pyval) :=
  match data !! k with
  | Some v => Ok v
  | None => Raise TypeError
  end.

Module VideoAnnotation.

Record t : Type := Build {
  frame : list pyval;
  time : list pyval;
  face_box : list pyval;
  face_prob : list pyval;
  face_landmarks : list pyval;
  face_aus : list pyval;
  face_label : list pyval;
  face_confidence : list pyval
}.

Definition field_names : list string :=
  ["frame"; "time"; "face_box"; "face_prob"; "face_landmarks";
   "face_aus"; "face_label"; "face_confidence"].

(** [dataclasses.asdict], in field order. *)
Definition asdict_items (a : t) : list (string * list pyval) :=
  [("frame", frame a); ("time", time a); ("face_box", face_box a);
   ("face_prob", face_prob a); ("face_landmarks", face_landmarks a);
   ("face_aus", face_aus a); ("face_label", face_label a);
   ("face_confidence", face_confidence a)].

(** The class called with the keywords [kwargs]. *)
Definition __init__ (kwargs : json_record) : result t :=
  if known_kwargs field_names kwargs
  then Ok (Build (kwarg_default kwargs "frame")
                 (kwarg_default kwargs "time")
                 (kwarg_default kwargs "face_box")
                 (kwarg_default kwargs "face_prob")
                 (kwarg_default kwargs "face_landmarks")
                 (kwarg_default kwargs "face_aus")
                 (kwarg_default kwargs "face_label")
                 (kwarg_default kwargs "face_confidence"))
  else Raise TypeError.

Definition _from_dict (data : json_record) : result t :=
  let filtered_data := filter_fields field_names data in
  __init__ filtered_data.

Definition from_json (file : json_file) : result t :=
  _from_dict (json_load file).

Definition write_json (a : t) : json_file := json_dump (asdict_items a).

End VideoAnnotation.

Module VoiceFeatures.

Record t : Type := Build {
  frame : list pyval;
  time : list pyval;
  pitch_f0 : list pyval
}.

Definition field_names : list string := ["frame"; "time"; "pitch_f0"].

Definition asdict_items (a : t) : list (string * list pyval) :=
  [("frame", frame a); ("time", time a); ("pitch_f0", pitch_f0 a)].

(** The class called with the keywords [kwargs]: [frame] and [time]
    have no default, leaving one out is a [TypeError] as well. *)
Definition __init__ (kwargs : json_record) : result t :=
  if known_kwargs field_names kwargs
  then f ← kwarg_required kwargs "frame";
       tm ← kwarg_required kwargs "time";
       Ok (Build f tm (kwarg_default kwargs "pitch_f0"))
  else Raise TypeError.

Definition _from_dict (data : json_record) : result t :=
  let filtered_data := filter_fields field_names data in
  __init__ filtered_data.

Definition from_json (file : json_file) : result t :=
  _from_dict (json_load file).

Definition write_json (a : t) : json_file := json_dump (asdict_items a).

End VoiceFeatures.

(** ** Sentiment *)

Record Sentiment : Type := Build_Sentiment {
  sent_index : pyval;
  pos : pyval;
  neg : pyval;
  neu : pyval
}.

Module SentimentAnnotation.

Record t : Type := Build { sentiment : list Sentiment }.

Definition field_names : list string := ["sentiment"].

(** [asdict] turns every [Sentiment] into a dict as well. *)
Definition asdict_Sentiment (s : Sentiment) : pyval :=
  PDict [("index", sent_index s); ("pos", pos s);
         ("neg", neg s); ("neu", neu s)].

Definition asdict_items (a : t) : list (string * list pyval) :=
  [("sentiment", map asdict_Sentiment (sentiment a))].

Definition Sentiment_of (s : pyval) : result Sentiment :=
  i ← py_getitem s "index";
  p ← py_getitem s "pos";
  n ← py_getitem s "neg";
  u ← py_getitem s "neu";
  Ok (Build_Sentiment i p n u).

Fixpoint Sentiments_of (l : list pyval) : result (list Sentiment) :=
  match l with
  | [] => Ok []
  | s :: l' =>
      x ← Sentiment_of s;
      xs ← Sentiments_of l';
      Ok (x :: xs)
  end.

(** The class called with the keywords [kwargs], the list of
    [Sentiment] already put in place of the list of dicts. *)
Definition __init__ (kwargs : json_record) (sentiment : list Sentiment)
  : result t :=
  if known_kwargs field_names kwargs then Ok (Build sentiment)
  else Raise TypeError.

(** [filtered_data['sentiment']] is a [KeyError] when the key is
    missing. *)
Definition from_dict (data : json_record) : result t :=
  let filtered_data := filter_fields field_names data in
  match filtered_data !! "sentiment" with
  | None => Raise KeyError
  | Some l => xs ← Sentiments_of l; __init__ filtered_data xs
  end.

Definition from_json (file : json_file) : result t :=
  from_dict (json_load file).

Definition write_json (a : t) : json_file := json_dump (asdict_items a).

End SentimentAnnotation.

(** ** Text of numbers

    [str] of an int and of a float that was rounded to two decimals, and
    the parsers [int] and [float] on the decimal forms these produce.
    The model stops there: [py_float] answers [ValueError] on every other
    text, so the exponent notation [repr] uses from 1e16 on, the words
    [nan] and [inf], and blanks around a number, all of which Python's
    [float] accepts, are outside it.  The properties below use the
    parsers on printed numbers and on the header's words only. *)

Definition newline : string := String (ascii_of_nat 10) EmptyString.

Definition round_half_even (q : Q) : Z :=
  let f := Qfloor q in
  match ((q - inject_Z f) ?= (1 # 2))%Q with
  | Lt => f
  | Gt => f + 1
  | Eq => if Z.even f then f else f + 1
  end.

(** [round(x, 2)], in hundredths. *)
Definition round2_hundredths (q : Q) : Z := round_half_even (q * 100)%Q.

Definition round2 (q : Q) : Q := Qred (round2_hundredths q # 100).

Definition str_int (z : Z) : string := pretty z.

Definition str_float2 (q : Q) : string :=
  let h := round2_hundredths q in
  let a := Z.abs h in
  let sign := if h <? 0 then "-" else "" in
  let frac := a mod 100 in
  let frac_str :=
    if frac mod 10 =? 0 then pretty (frac / 10)
    else pretty (frac / 10) +:+ pretty (frac mod 10) in
  sign +:+ pretty (a / 100) +:+ "." +:+ frac_str.

Definition digit_of (c : ascii) : option Z :=
  let n := Z.of_nat (nat_of_ascii c) in
  if (48 <=? n) && (n <=? 57) then Some (n - 48) else None.

(** Reads a run of digits: the number read so far, how many digits, and
    the rest of the text. *)
Fixpoint read_digits (s : string) (acc : Z) (count : nat)
  : Z * nat * string :=
  match s with
  | String c s' =>
      match digit_of c with
      | Some d => read_digits s' (10 * acc + d) (S count)
      | None => (acc, count, s)
      end
  | EmptyString => (acc, count, s)
  end.

Definition read_sign (s : string) : bool * string :=
  match s with
  | String "-" s' => (true, s')
  | String "+" s' => (false, s')
  | _ => (false, s)
  end.

Definition py_int (s : string) : result Z :=
  let '(negative, s1) := read_sign s in
  let '(n, count, rest) := read_digits s1 0 0 in
  match count, rest with
  | S _, EmptyString => Ok (if negative then - n else n)
  | _, _ => Raise ValueError
  end.

Definition py_float (s : string) : result Q :=
  let '(negative, s1) := read_sign s in
  let '(n, count, rest) := read_digits s1 0 0 in
  let signed (q : Q) : Q := Qred (if negative then - q else q)%Q in
  match rest with
  | EmptyString =>
      match count with
      | S _ => Ok (signed (inject_Z n))
      | O => Raise ValueError
      end
  | String "." s2 =>
      let '(m, count2, rest2) := read_digits s2 0 0 in
      match rest2, (count + count2)%nat with
      | EmptyString, S _ =>
          Ok (signed (inject_Z n + (m # Pos.of_nat (Nat.pow 10 count2)))%Q)
      | _, _ => Raise ValueError
      end
  | _ => Raise ValueError
  end.

(** [s.split(" ")] *)
Fixpoint split_space_go (s : string) (cur : string) : list string :=
  match s with
  | EmptyString => [String.rev cur]
  | String " " s' => String.rev cur :: split_space_go s' EmptyString
  | String c s' => split_space_go s' (String c cur)
  end.

Definition split_space (s : string) : list string :=
  split_space_go s EmptyString.

(** A file opened with [open(filename, "r")] is read with universal
    newlines: a carriage return, alone or before a line feed, ends a line
    and is handed over as a line feed. *)
Definition carriage_return : ascii := ascii_of_nat 13.

Fixpoint universal_newlines (s : string) : string :=
  match s with
  | EmptyString => EmptyString
  | String c s' =>
      if Ascii.eqb c carriage_return
      then match s' with
           | String c' s'' =>
               if Ascii.eqb c' (ascii_of_nat 10)
               then String (ascii_of_nat 10) (universal_newlines s'')
               else String (ascii_of_nat 10) (universal_newlines s')
           | EmptyString => String (ascii_of_nat 10) EmptyString
           end
      else String c (universal_newlines s')
  end.

(** Iterating over the text read: its lines, each with its line end. *)
Fixpoint file_lines_go (s : string) (cur : string) : list string :=
  match s with
  | EmptyString =>
      match cur with EmptyString => [] | _ => [String.rev cur] end
  | String c s' =>
      if Ascii.eqb c (ascii_of_nat 10)
      then String.rev (String c cur) :: file_lines_go s' EmptyString
      else file_lines_go s' (String c cur)
  end.

Definition file_lines (s : string) : list string :=
  file_lines_go s EmptyString.

(** ** Speech segments and the RTTM format *)

(** [filename] is declared [str]; a file read back may hold ["<NA>"] in
    that column, which [from_rttm] stores as [None]. *)
Record SegmentData : Type := Build_SegmentData {
  seg_filename : option string;
  channel : Z;
  name : option string;
  conf : option Q
}.

(** [intervaltree.Interval(begin, end, data)] *)
Record Segment : Type := Build_Segment {
  begin : Q;
  end_ : Q;
  data : SegmentData
}.

Definition option_eqb {A : Type} (eqb : A -> A -> bool) (a b : option A)
  : bool :=
  match a, b with
  | Some x, Some y => eqb x y
  | None, None => true
  | _, _ => false
  end.

Definition SegmentData_eqb (a b : SegmentData) : bool :=
  option_eqb String.eqb (seg_filename a) (seg_filename b)
  && (channel a =? channel b)
  && option_eqb String.eqb (name a) (name b)
  && option_eqb Qeq_bool (conf a) (conf b).

Definition Segment_eqb (a b : Segment) : bool :=
  Qeq_bool (begin a) (begin b) && Qeq_bool (end_ a) (end_ b)
  && SegmentData_eqb (data a) (data b).

(** A [SpeakerAnnotation] is an interval tree, which keeps its intervals
    in a set.  The model lists them in the order iteration yields them;
    that order is the set's, not the order of insertion, so the place of
    an interval in the list stands for no fact of the code: what the
    properties say of a tree is said of its members. *)
Abbreviation SpeakerAnnotation := (list Segment).

(** [IntervalTree.add]: an interval already stored is skipped, a null
    interval ([begin >= end]) is a [ValueError]. *)
Definition tree_add (tree : SpeakerAnnotation) (iv : Segment)
  : result SpeakerAnnotation :=
  if existsb (Segment_eqb iv) tree then Ok tree
  else if Qle_bool (end_ iv) (begin iv) then Raise ValueError
  else Ok (tree ++ [iv]).

(** [tree[t]]: the intervals with [begin <= t < end]. *)
Definition covers (b e t : Q) : bool :=
  Qle_bool b t && negb (Qle_bool e t).

Definition tree_at (tree : SpeakerAnnotation) (t : Q) : list Segment :=
  List.filter (fun seg => covers (begin seg) (end_ seg) t) tree.

(** A value handed to [print] in [SpeakerAnnotation.__str__]. *)
Inductive rttm_col : Type :=
| ColNone
| ColStr (s : string)
| ColInt (z : Z)
| ColFloat (q : Q).

Definition option_col {A : Type} (f : A -> rttm_col) (o : option A)
  : rttm_col :=
  match o with Some a => f a | None => ColNone end.

Definition _get_rttm_header : list string :=
  ["type"; "file"; "chnl"; "tbeg"; "tdur"; "ortho"; "stype"; "name"; "conf"].

(** The tuple of columns the loop of [__str__] prints for one segment. *)
Definition segment_cols (seg : Segment) : list rttm_col :=
  [ColStr "SPEAKER"; option_col ColStr (seg_filename (data seg));
   ColInt (channel (data seg)); ColFloat (begin seg); ColFloat (end_ seg);
   ColNone; ColNone; ColNone;
   option_col ColStr (name (data seg)); option_col ColFloat (conf (data seg))].

(** [print(col, end=end)], after the rounding of floats and with ["<NA>"]
    for [None]. *)
Definition print_col (end_sep : string) (col : rttm_col) : string :=
  match col with
  | ColNone => "<NA>" +:+ end_sep
  | ColStr s => s +:+ end_sep
  | ColInt z => str_int z +:+ end_sep
  | ColFloat q => str_float2 q +:+ end_sep
  end.

Definition concat_strings (l : list string) : string :=
  fold_right String.append EmptyString l.

Definition print_segment (end_sep : string) (seg : Segment) : string :=
  concat_strings (map (print_col end_sep) (segment_cols seg)) +:+ newline.

Definition SpeakerAnnotation_str (self : SpeakerAnnotation)
    (end_sep : string) (header : bool) : string :=
  (if header
   then concat_strings (map (fun h => h +:+ end_sep) _get_rttm_header)
        +:+ newline
   else EmptyString)
  +:+ concat_strings (map (print_segment end_sep) self).

Definition write_rttm (self : SpeakerAnnotation) : string :=
  SpeakerAnnotation_str self " " false.

(** [row_split[i]] *)
Definition row_get (row_split : list (option string)) (i : nat)
  : result (option string) :=
  match row_split !! i with
  | Some c => Ok c
  | None => Raise IndexError
  end.

(** [float(c)] and [int(c)] on a cell: [None] is a [TypeError]. *)
Definition cell_float (c : option string) : result Q :=
  match c with Some s => py_float s | None => Raise TypeError end.

Definition cell_int (c : option string) : result Z :=
  match c with Some s => py_int s | None => Raise TypeError end.

Definition rttm_row (row : string) : result Segment :=
  let row_split :=
    map (fun cell => if String.eqb cell "<NA>" then None else Some cell)
        (split_space row) in
  c3 ← row_get row_split 3;
  b ← cell_float c3;
  c4 ← row_get row_split 4;
  d ← cell_float c4;
  c1 ← row_get row_split 1;
  c2 ← row_get row_split 2;
  ch ← cell_int c2;
  c7 ← row_get row_split 7;
  Ok (Build_Segment b (b + d)%Q (Build_SegmentData c1 ch c7 None)).

Fixpoint from_rttm_rows (rows : list string) (segment_tree : SpeakerAnnotation)
  : result SpeakerAnnotation :=
  match rows with
  | [] => Ok segment_tree
  | row :: rows' =>
      segment ← rttm_row row;
      tree' ← tree_add segment_tree segment;
      from_rttm_rows rows' tree'
  end.

Definition from_rttm (file : string) : result SpeakerAnnotation :=
  from_rttm_rows (file_lines (universal_newlines file)) [].

(** ** Transcripts

    [AudioTranscription.subtitles] is an interval tree; [from_srt] stores
    each subtitle as [Interval(begin, end, data)] with a
    [TranscriptionData(index, text)]. *)

Record TranscriptionData : Type := Build_TranscriptionData {
  index : Z;
  text : string
}.

Record TranscriptSpan : Type := Build_TranscriptSpan {
  span_begin : Q;
  span_end : Q;
  span_data : TranscriptionData
}.

Record AudioTranscription : Type := Build_AudioTranscription {
  tr_filename : string;
  subtitles : list TranscriptSpan
}.

(** [subtitles[t]]: the intervals of the store that cover [t]. *)
Definition subtitles_at (subs : list TranscriptSpan) (t : Q)
  : list TranscriptSpan :=
  List.filter (fun span => covers (span_begin span) (span_end span) t) subs.

(** What the merge reads of a span.  An [Interval] is a named tuple with
    the fields [begin], [end] and [data]: it has no attribute [start] and
    none [content]; its [end] is a float, which has no [total_seconds];
    its [index] is the method of tuples, equal to no number. *)
Definition span_start_total_seconds (span : TranscriptSpan) : result Q :=
  Raise AttributeError.

Definition span_end_total_seconds (span : TranscriptSpan) : result Q :=
  Raise AttributeError.

Definition span_content (span : TranscriptSpan) : result string :=
  Raise AttributeError.

Definition span_index_equals (span : TranscriptSpan) (i : pyval) : bool :=
  false.

(** A [for] loop whose body may raise: the results of the passes, or the
    first exception. *)
Fixpoint for_each {A B : Type} (body : A -> result B) (l : list A)
  : result (list B) :=
  match l with
  | [] => Ok []
  | a :: l' =>
      b ← body a;
      bs ← for_each body l';
      Ok (b :: bs)
  end.

(** ** Data frames

    A table indexed by [(frame, time)]: the names of its other columns and
    its rows, each a key with one cell per column. *)

Definition key : Type := pyval * pyval.

Record DataFrame : Type := Build_DataFrame {
  columns : list string;
  rows : list (key * list pyval)
}.

Definition key_eqb (a b : key) : bool :=
  py_eqb a.1 b.1 && py_eqb a.2 b.2.

Definition all_same_length (cols : list (list pyval)) : bool :=
  match cols with
  | [] => true
  | c :: cs => forallb (fun c' => Nat.eqb (length c') (length c)) cs
  end.

Fixpoint assoc (k : string) (d : list (string * list pyval))
  : result (list pyval) :=
  match d with
  | [] => Raise KeyError
  | (k', v) :: d' => if String.eqb k k' then Ok v else assoc k d'
  end.

(** Row [i] of a list of columns, for [i] below [n]. *)
Fixpoint rows_of (n : nat) (cols : list (list pyval)) : list (list pyval) :=
  match n with
  | O => []
  | S n' => map (hd PNone) cols :: rows_of n' (map (@tl pyval) cols)
  end.

Definition is_index_name (k : string) : bool :=
  String.eqb k "frame" || String.eqb k "time".

(** [pd.DataFrame(d).set_index(['frame', 'time'])]: arrays of different
    lengths are a [ValueError]. *)
Definition indexed_frame (d : list (string * list pyval)) : result DataFrame :=
  if all_same_length (map snd d) then
    fr ← assoc "frame" d;
    tm ← assoc "time" d;
    let others := List.filter (fun kv => negb (is_index_name (fst kv))) d in
    Ok (Build_DataFrame (map fst others)
          (zip (zip fr tm) (rows_of (length fr) (map snd others))))
  else Raise ValueError.

(** [pd.merge(left, right, on=['frame', 'time'], how='left')]: every left
    row once per matching right row, or once with missing values.  (The
    column names of the tables merged here are disjoint.) *)
Definition matching (k : key) (right : DataFrame) : list (list pyval) :=
  map snd (List.filter (fun r => key_eqb k (fst r)) (rows right)).

Definition merge_row (right : DataFrame) (r : key * list pyval)
  : list (key * list pyval) :=
  match matching (fst r) right with
  | [] => [(fst r, snd r ++ repeat PNaN (length (columns right)))]
  | ms => map (fun cells => (fst r, snd r ++ cells)) ms
  end.

Definition merge_left (left right : DataFrame) : DataFrame :=
  Build_DataFrame (columns left ++ columns right)
                  (flat_map (merge_row right) (rows left)).

(** [functools.reduce] with the left merge. *)
Definition reduce_merge (first : DataFrame) (others : list DataFrame)
  : DataFrame :=
  fold_left merge_left others first.

(** [df.reset_index()]: the key becomes the first two columns. *)
Record FlatFrame : Type := Build_FlatFrame {
  flat_columns : list string;
  flat_rows : list (list pyval)
}.

Definition reset_index (df : DataFrame) : FlatFrame :=
  Build_FlatFrame ("frame" :: "time" :: columns df)
                  (map (fun r => fst (fst r) :: snd (fst r) :: snd r) (rows df)).

(** ** Multimodal *)

Record Multimodal : Type := Build_Multimodal {
  filename : string;
  duration : option Q;
  fps : option Q;
  fps_adjusted : option Q;
  video_annotation : option VideoAnnotation.t;
  audio_annotation : option SpeakerAnnotation;
  voice_features : option VoiceFeatures.t;
  transcription : option AudioTranscription;
  sentiment : option SentimentAnnotation.t;
  features : option FlatFrame
}.

(** [Multimodal.__init__]: [fps_adjusted] defaults to [fps]. *)
Definition Multimodal_init (filename : string) (duration fps fps_adjusted : option Q)
    (video_annotation : option VideoAnnotation.t)
    (audio_annotation : option SpeakerAnnotation)
    (voice_features : option VoiceFeatures.t)
    (transcription : option AudioTranscription)
    (sentiment : option SentimentAnnotation.t)
    (features : option FlatFrame) : Multimodal :=
  Build_Multimodal filename duration fps
    (match fps_adjusted with None => fps | Some _ => fps_adjusted end)
    video_annotation audio_annotation voice_features transcription
    sentiment features.

Definition set_features (self : Multimodal) (f : option FlatFrame) : Multimodal :=
  Build_Multimodal (filename self) (duration self) (fps self)
    (fps_adjusted self) (video_annotation self) (audio_annotation self)
    (voice_features self) (transcription self) (sentiment self) f.

(** Truth values.  An interval tree and an [AudioTranscription] define
    [__len__], so an empty one is false; the dataclasses are true whenever
    they are not [None]. *)
Definition audio_annotation_true (self : Multimodal) : option SpeakerAnnotation :=
  match audio_annotation self with
  | Some (seg :: tree) => Some (seg :: tree)
  | _ => None
  end.

Definition transcription_true (self : Multimodal) : option AudioTranscription :=
  match transcription self with
  | Some tr => match subtitles tr with [] => None | _ :: _ => Some tr end
  | None => None
  end.

Definition _merge_video_annotation (self : Multimodal)
    (data_frames : list DataFrame) : result (list DataFrame) :=
  match video_annotation self with
  | Some va =>
      df ← indexed_frame (VideoAnnotation.asdict_items va);
      Ok (data_frames ++ [df])
  | None => Ok data_frames
  end.

(** The operands of the two [np.arange] calls: [1/self.fps_adjusted] and
    [self.duration*self.fps] raise on [None] and on a zero divisor. *)
Definition merge_axis (self : Multimodal) : result (list (Z * Q)) :=
  match fps_adjusted self with
  | None => Raise TypeError
  | Some fa =>
      if Qeq_bool fa 0 then Raise ZeroDivisionError
      else
        match duration self, fps self with
        | Some d, Some f => Ok (zip (frame_axis d f fa) (time_axis d fa))
        | _, _ => Raise TypeError
        end
  end.

Definition name_cell (o : option string) : pyval :=
  match o with Some s => PStr s | None => PNone end.

(** The rows appended to [audio_annotation_dict]: one per axis point and
    segment covering it. *)
Definition audio_events (tree : SpeakerAnnotation) (axis : list (Z * Q))
  : list (Z * Q * Segment) :=
  flat_map (fun it => map (fun seg => (it, seg)) (tree_at tree (snd it))) axis.

Definition audio_annotation_dict (ev : list (Z * Q * Segment))
  : list (string * list pyval) :=
  [("frame", map (fun e => PInt (fst (fst e))) ev);
   ("time", map (fun e => PFloat (snd (fst e))) ev);
   ("segment_start", map (fun e => PFloat (begin (snd e))) ev);
   ("segment_end", map (fun e => PFloat (end_ (snd e))) ev);
   ("segment_speaker_label", map (fun e => name_cell (name (data (snd e)))) ev)].

(** A row appended to [text_features_dict]: frame, time, the start, end
    and text of the span, and the sentiment whose scores are appended
    with it, if any. *)
Definition text_event : Type := Z * Q * (Q * Q * string) * option Sentiment.

(** With a sentiment annotation the spans covering [t] are paired by
    position with the sentiment list ([zip]); each pair appends a row, and
    the scores when the two indices are equal. *)
Definition sentiment_row (it : Z * Q) (ps : TranscriptSpan * Sentiment)
  : result text_event :=
  st ← span_start_total_seconds (fst ps);
  en ← span_end_total_seconds (fst ps);
  tx ← span_content (fst ps);
  Ok (it, (st, en, tx),
      if span_index_equals (fst ps) (sent_index (snd ps))
      then Some (snd ps) else None).

Definition sentiment_events (subs : list TranscriptSpan)
    (sents : list Sentiment) (axis : list (Z * Q))
  : result (list text_event) :=
  match for_each
          (fun it =>
             for_each (sentiment_row it)
                      (zip (subtitles_at subs (snd it)) sents))
          axis with
  | Ok rows => Ok (concat rows)
  | Raise e => Raise e
  end.

(** Without a sentiment annotation every span of the store is tested with
    [start <= t <= end], and appends a row when the test holds. *)
Definition containment_row (it : Z * Q) (span : TranscriptSpan)
  : result (option text_event) :=
  st ← span_start_total_seconds span;
  en ← span_end_total_seconds span;
  if Qle_bool st (snd it) && Qle_bool (snd it) en
  then tx ← span_content span; Ok (Some (it, (st, en, tx), None))
  else Ok None.

Definition contained_rows (subs : list TranscriptSpan) (it : Z * Q)
  : result (list text_event) :=
  match for_each (containment_row it) subs with
  | Ok found => Ok (omap (fun r : option text_event => r) found)
  | Raise e => Raise e
  end.

Definition span_events (subs : list TranscriptSpan) (axis : list (Z * Q))
  : result (list text_event) :=
  match for_each (contained_rows subs) axis with
  | Ok rows => Ok (concat rows)
  | Raise e => Raise e
  end.

Definition span_columns (ev : list text_event) : list (string * list pyval) :=
  [("frame", map (fun e => PInt (fst (fst (fst e)))) ev);
   ("time", map (fun e => PFloat (snd (fst (fst e)))) ev);
   ("span_start", map (fun e => PFloat (fst (fst (snd (fst e))))) ev);
   ("span_end", map (fun e => PFloat (snd (fst (snd (fst e))))) ev);
   ("span_text", map (fun e => PStr (snd (snd (fst e)))) ev)].

Definition sentiment_columns (ev : list text_event)
  : list (string * list pyval) :=
  let matched := omap snd ev in
  [("span_sent_pos", map pos matched);
   ("span_sent_neg", map neg matched);
   ("span_sent_neu", map neu matched)].

Definition text_features_dict (self : Multimodal) (tr : AudioTranscription)
    (axis : list (Z * Q)) : result (list (string * list pyval)) :=
  match sentiment self with
  | Some sa =>
      ev ← sentiment_events (subtitles tr)
             (SentimentAnnotation.sentiment sa) axis;
      Ok (span_columns ev ++ sentiment_columns ev)
  | None =>
      ev ← span_events (subtitles tr) axis;
      Ok (span_columns ev)
  end.

(** The table [_merge_audio_text_features] appends, when it appends one:
    the loop over the axis fills both dictionaries, then the two tables
    are built and joined. *)
Definition audio_text_features_df (self : Multimodal) (tree : SpeakerAnnotation)
  : result DataFrame :=
  axis ← merge_axis self;
  match transcription_true self with
  | Some tr =>
      text_dict ← text_features_dict self tr axis;
      audio_df ← indexed_frame (audio_annotation_dict (audio_events tree axis));
      text_df ← indexed_frame text_dict;
      Ok (merge_left audio_df text_df)
  | None =>
      indexed_frame (audio_annotation_dict (audio_events tree axis))
  end.

Definition _merge_audio_text_features (self : Multimodal)
    (data_frames : list DataFrame) : result (list DataFrame) :=
  match audio_annotation_true self with
  | Some tree =>
      df ← audio_text_features_df self tree;
      Ok (data_frames ++ [df])
  | None => Ok data_frames
  end.

Definition _merge_voice_features (self : Multimodal)
    (data_frames : list DataFrame) : result (list DataFrame) :=
  match voice_features self with
  | Some vf =>
      df ← indexed_frame (VoiceFeatures.asdict_items vf);
      Ok (data_frames ++ [df])
  | None => Ok data_frames
  end.

(** [merge_features] returns the object as it leaves it and the value
    returned. *)
Definition merge_features (self : Multimodal)
  : result (Multimodal * option FlatFrame) :=
  let dfs := [] in
  dfs ← _merge_video_annotation self dfs;
  dfs ← _merge_audio_text_features self dfs;
  dfs ← _merge_voice_features self dfs;
  match dfs with
  | first :: others =>
      let merged := Some (reset_index (reduce_merge first others)) in
      Ok (set_features self merged, merged)
  | [] => Ok (self, features self)
  end.

(** ** Tables by modality, as the specification orders them *)

(** The table of each modality, when the modality is there. *)
Definition video_table (self : Multimodal) : result (option DataFrame) :=
  match video_annotation self with
  | Some va =>
      df ← indexed_frame (VideoAnnotation.asdict_items va); Ok (Some df)
  | None => Ok None
  end.

Definition audio_text_table (self : Multimodal) : result (option DataFrame) :=
  match audio_annotation_true self with
  | Some tree => df ← audio_text_features_df self tree; Ok (Some df)
  | None => Ok None
  end.

Definition voice_table (self : Multimodal) : result (option DataFrame) :=
  match voice_features self with
  | Some vf =>
      df ← indexed_frame (VoiceFeatures.asdict_items vf); Ok (Some df)
  | None => Ok None
  end.

(** The tables that exist, video first, then audio/text, then voice,
    joined from the left. *)
Definition joined_in_order (self : Multimodal) (v a w : option DataFrame)
  : Multimodal * option FlatFrame :=
  match option_list v ++ option_list a ++ option_list w with
  | first :: others =>
      let merged := Some (reset_index (reduce_merge first others)) in
      (set_features self merged, merged)
  | [] => (self, features self)
  end.

(** A row of the left outer join of [left] and [right] on the key, as
    the specification words it: a row of [left], extended by the cells of
    a row of [right] that has an equal key or, when [right] has no such
    row, by one missing value for each column of [right]. *)
Definition left_outer_row (left right : DataFrame) (row : key * list pyval)
  : Prop :=
  exists vs,
    In (fst row, vs) (rows left)
    /\ ((exists k' ws,
           In (k', ws) (rows right)
           /\ key_eqb (fst row) k' = true /\ snd row = vs ++ ws)
        \/ ((forall r, In r (rows right) -> key_eqb (fst row) (fst r) = false)
            /\ snd row = vs ++ repeat PNaN (length (columns right)))).

(** ** Column dictionaries as lists of appended rows *)

(** A column dictionary filled by appending one entry per column for each
    of a list of rows: the two key columns and, for the others, a name and
    the cell each appended row gives. *)
Definition event_columns {E : Type} (ff ft : E -> pyval)
    (cells : list (string * (E -> pyval))) (ev : list E)
  : list (string * list pyval) :=
  ("frame", map ff ev) :: ("time", map ft ev)
  :: map (fun nf => (fst nf, map (snd nf) ev)) cells.

Definition event_row {E : Type} (ff ft : E -> pyval)
    (cells : list (string * (E -> pyval))) (e : E) : key * list pyval :=
  ((ff e, ft e), map (fun nf => snd nf e) cells).

Definition audio_cells : list (string * (Z * Q * Segment -> pyval)) :=
  [("segment_start", fun e => PFloat (begin (snd e)));
   ("segment_end", fun e => PFloat (end_ (snd e)));
   ("segment_speaker_label", fun e => name_cell (name (data (snd e))))].

(** The arrays of a column dictionary are not all of one length. *)
Definition mismatched (d : list (string * list pyval)) : Prop :=
  exists c1 c2 : list pyval,
    In c1 (map snd d) /\ In c2 (map snd d) /\ length c1 <> length c2.

(** ** Example inputs *)

Definition rttm_example : SpeakerAnnotation :=
  [Build_Segment 1 2 (Build_SegmentData (Some "f") 1 (Some "A") None)].

Definition empty_table : FlatFrame := Build_FlatFrame ["frame"; "time"] [].

Definition bare (features : option FlatFrame) : Multimodal :=
  Multimodal_init "video.mp4" None None None None None None None None features.

Definition short_time_doc : json_file :=
  [("frame", [JInt 0; JInt 1]); ("time", [JFloat 0])].

Definition short_time : VideoAnnotation.t :=
  VideoAnnotation.Build [PInt 0; PInt 1] [PFloat 0] [] [] [] [] [] [].

Definition with_short_time : Multimodal :=
  Multimodal_init "video.mp4" (Some 2%Q) (Some 1%Q) None (Some short_time)
    None None None None None.

Definition hello_span : TranscriptSpan :=
  Build_TranscriptSpan 0 1 (Build_TranscriptionData 0 "hello").
Definition world_span : TranscriptSpan :=
  Build_TranscriptSpan 1 2 (Build_TranscriptionData 1 "world").
Definition speaker_A : Segment :=
  Build_Segment 0 2 (Build_SegmentData (Some "f") 1 (Some "A") None).
Definition sent0 : Sentiment :=
  Build_Sentiment (PInt 0) (PFloat (7 # 10)) (PFloat (1 # 10)) (PFloat (2 # 10)).
Definition sent1 : Sentiment :=
  Build_Sentiment (PInt 1) (PFloat (1 # 10)) (PFloat (8 # 10)) (PFloat (1 # 10)).

Definition only_transcript : Multimodal :=
  Multimodal_init "video.mp4" (Some 2%Q) (Some 1%Q) None None None None
    (Some (Build_AudioTranscription "video.srt" [hello_span])) None None.

Definition segments_and_transcript : Multimodal :=
  Multimodal_init "video.mp4" (Some 2%Q) (Some 1%Q) None None
    (Some [speaker_A]) None
    (Some (Build_AudioTranscription "video.srt" [hello_span])) None None.

Definition one_sentence : Multimodal :=
  Multimodal_init "video.mp4" (Some 1%Q) (Some 1%Q) None None
    (Some [speaker_A]) None
    (Some (Build_AudioTranscription "video.srt" [hello_span]))
    (Some (SentimentAnnotation.Build [sent0])) None.

Definition two_sentences : Multimodal :=
  Multimodal_init "video.mp4" (Some 2%Q) (Some 1%Q) None None
    (Some [speaker_A]) None
    (Some (Build_AudioTranscription "video.srt" [hello_span; world_span]))
    (Some (SentimentAnnotation.Build [sent0; sent1])) None.

(** ** Building and re-reading speaker annotations *)

(** Adding intervals one after the other with [IntervalTree.add]. *)
Fixpoint add_all (segments : list Segment) (tree : SpeakerAnnotation)
  : result SpeakerAnnotation :=
  match segments with
  | [] => Ok tree
  | seg :: segments' =>
      tree' ← tree_add tree seg;
      add_all segments' tree'
  end.

(** One item of [annotation.itertracks(yield_label=True)]: the bounds of
    the segment and the label, an int or a string. *)
Inductive pyannote_label : Type :=
| LabelInt (z : Z)
| LabelStr (s : string).

Record pyannote_track : Type := Build_pyannote_track {
  track_start : Q;
  track_end : Q;
  track_label : pyannote_label
}.

Definition str_label (l : pyannote_label) : string :=
  match l with
  | LabelInt z => str_int z
  | LabelStr s => s
  end.

(** [SpeakerAnnotation.from_pyannote], for an annotation with the given
    [uri] and tracks. *)
Definition from_pyannote (uri : option string) (tracks : list pyannote_track)
  : result SpeakerAnnotation :=
  add_all
    (map (fun tr =>
            Build_Segment (track_start tr) (track_end tr)
              (Build_SegmentData uri 1 (Some (str_label (track_label tr)))
                                 None))
         tracks)
    [].

(** A text without blank and without line end (line feed or carriage
    return): it stays one cell of one row. *)
Fixpoint plain (s : string) : bool :=
  match s with
  | EmptyString => true
  | String c s' =>
      negb (Ascii.eqb c " ") && negb (Ascii.eqb c (ascii_of_nat 10))
      && negb (Ascii.eqb c carriage_return)
      && plain s'
  end.

Definition plain_option (o : option string) : bool :=
  match o with Some s => plain s | None => true end.

Definition plain_segment (seg : Segment) : bool :=
  plain_option (seg_filename (data seg)) && plain_option (name (data seg)).

(** What [from_rttm] makes of the row [write_rttm] prints for a segment:
    [begin] rounded, [end] the sum of the two rounded bounds, no speaker
    label, no confidence. *)
Definition na_cell (cell : string) : option string :=
  if String.eqb cell "<NA>" then None else Some cell.

Definition read_back (seg : Segment) : Segment :=
  Build_Segment (round2 (begin seg))
    (round2 (begin seg) + round2 (end_ seg))%Q
    (Build_SegmentData
       (match seg_filename (data seg) with
        | Some s => na_cell s
        | None => None
        end)
       (channel (data seg)) None None).

(** A row as the header of [_get_rttm_header] lays it out: nine columns,
    the duration in the fifth and the speaker label in the eighth. *)
Definition header_row (fname : string) (chnl : Z) (tbeg tdur : Q)
    (speaker : string) : string :=
  concat_strings
    (map (fun t => t +:+ " ")
         ["SPEAKER"; fname; str_int chnl; str_float2 tbeg; str_float2 tdur;
          "<NA>"; "<NA>"; speaker])
  +:+ "<NA>" +:+ newline.

(** ** Definitions for the further properties *)

(** The text of the two decimals, as [str_float2] prints them. *)
Definition frac_text (frac : Z) : string :=
  if frac mod 10 =? 0 then pretty (frac / 10)
  else pretty (frac / 10) +:+ pretty (frac mod 10).

(** [py_float], after the sign. *)
Definition float_digits (negative : bool) (s1 : string) : result Q :=
  let '(n, count, rest) := read_digits s1 0 0 in
  let signed (q : Q) : Q := Qred (if negative then - q else q)%Q in
  match rest with
  | EmptyString =>
      match count with
      | S _ => Ok (signed (inject_Z n))
      | O => Raise ValueError
      end
  | String "." s2 =>
      let '(m, count2, rest2) := read_digits s2 0 0 in
      match rest2, (count + count2)%nat with
      | EmptyString, S _ =>
          Ok (signed (inject_Z n + (m # Pos.of_nat (Nat.pow 10 count2)))%Q)
      | _, _ => Raise ValueError
      end
  | _ => Raise ValueError
  end.

(** The text [print] writes for a column, before the separator. *)
Definition col_text (col : rttm_col) : string :=
  match col with
  | ColNone => "<NA>"
  | ColStr s => s
  | ColInt z => str_int z
  | ColFloat q => str_float2 q
  end.

(** A text without line end. *)
Fixpoint one_line (s : string) : bool :=
  match s with
  | EmptyString => true
  | String c s' => negb (Ascii.eqb c (ascii_of_nat 10)) && one_line s'
  end.

(** A text without carriage return. *)
Fixpoint no_return (s : string) : bool :=
  match s with
  | EmptyString => true
  | String c s' => negb (Ascii.eqb c carriage_return) && no_return s'
  end.

(** The separator [__str__] prints by default. *)
Definition tab : string := String (ascii_of_nat 9) EmptyString.

(** No interval twice. *)
Fixpoint distinct (tree : SpeakerAnnotation) : bool :=
  match tree with
  | [] => true
  | seg :: tree' => negb (existsb (Segment_eqb seg) tree') && distinct tree'
  end.

Definition valid_tree (tree : SpeakerAnnotation) : Prop :=
  (forall seg, In seg tree -> (begin seg < end_ seg)%Q)
  /\ distinct tree = true.

(** The row of an axis point and a segment covering it. *)
Definition segment_row (i : Z) (t : Q) (seg : Segment) : key * list pyval :=
  ((PInt i, PFloat t),
   [PFloat (begin seg); PFloat (end_ seg); name_cell (name (data seg))]).

Definition speech_only (duration fps fps_adjusted : option Q) : Multimodal :=
  Multimodal_init "audio.wav" duration fps fps_adjusted None
    (Some [speaker_A]) None None None None.

Definition two_frames : VideoAnnotation.t :=
  VideoAnnotation.Build [PInt 0; PInt 1] [PFloat 0; PFloat (1 # 30)]
    [PNaN; PNaN] [PNaN; PNaN] [PNaN; PNaN] [PNaN; PNaN] [PNaN; PNaN]
    [PNaN; PNaN].

Definition video_only : Multimodal :=
  Multimodal_init "video.mp4" None None None (Some two_frames)
    None None None None None.

(** Two video frames, a speech segment over both, and the pitch of the
    first frame only. *)
Definition three_modalities : Multimodal :=
  Multimodal_init "video.mp4" (Some (1 # 15)) (Some 30%Q) (Some 30%Q)
    (Some two_frames) (Some [speaker_A])
    (Some (VoiceFeatures.Build [PInt 0] [PFloat 0] [PFloat 100]))
    None None None.

(** The object without its transcript and its sentiment annotation. *)
Definition without_text (self : Multimodal) : Multimodal :=
  Build_Multimodal (filename self) (duration self) (fps self)
    (fps_adjusted self) (video_annotation self) (audio_annotation self)
    (voice_features self) None None (features self).

(** The value a call returns, or its exception. *)
Definition returned {A B : Type} (r : result (A * B)) : result B :=
  match r with
  | Ok (_, b) => Ok b
  | Raise e => Raise e
  end.

(** * Properties *)

(** ** The axes *)

Lemma length_time_axis (duration fps_adjusted : Q) :
  length (time_axis duration fps_adjusted)
  = arange_len 0 duration (1 / fps_adjusted)%Q.
Proof.
  unfold time_axis, arange_float32. rewrite length_map, length_seq.
  reflexivity.
Qed.

Lemma length_frame_axis (duration fps fps_adjusted : Q) :
  length (frame_axis duration fps fps_adjusted)
  = arange_len 0 (duration * fps)%Q fps_adjusted.
Proof.
  unfold frame_axis, arange_int32. rewrite length_map, length_seq.
  reflexivity.
Qed.

(** C1. The frame axis of the merge steps by [fps_adjusted], not by
    [fps / fps_adjusted]: for duration 5, fps 30 and fps_adjusted 10 it is
    the 15 points 0, 10, ..., 140, while the sequence [i * (fps /
    fps_adjusted)] rounded to the nearest integer is the 50 points 0, 3,
    ..., 147. *)
Theorem frame_axis_steps_by_fps_adjusted :
  frame_axis 5 30 10 = map (fun i : nat => 10 * Z.of_nat i) (seq 0 15)
  /\ spec_frame_axis 5 30 10 = map (fun i : nat => 3 * Z.of_nat i) (seq 0 50)
  /\ frame_axis 5 30 10 <> spec_frame_axis 5 30 10.
Proof.
  split; [ | split ].
  - vm_compute. reflexivity.
  - vm_compute. reflexivity.
  - intros H. apply (f_equal (@length Z)) in H. vm_compute in H. discriminate H.
Qed.

(** C4. For duration 5, fps 30 and fps_adjusted 10 the time axis has 50
    points and the frame axis 15: the two axes are not of one length, and
    [zip] pairs only the first 15 of each. *)
Theorem axes_lengths_differ :
  length (time_axis 5 10) = 50%nat
  /\ length (frame_axis 5 30 10) = 15%nat
  /\ length (zip (frame_axis 5 30 10) (time_axis 5 10)) = 15%nat.
Proof. repeat split; vm_compute; reflexivity. Qed.

(** ** RTTM files *)

(** C2. Writing the one segment [1.0, 2.0) of speaker "A" and reading the
    file back: the writer puts [end], 2.0, in the duration column and the
    speaker label in the ninth column, so the segment read back ends at
    1.0 + 2.0 = 3.0 and has no speaker label. *)
Theorem rttm_round_trip_example :
  write_rttm rttm_example
    = "SPEAKER f 1 1.0 2.0 <NA> <NA> <NA> A <NA> " +:+ newline
  /\ from_rttm (write_rttm rttm_example)
    = Ok [Build_Segment 1 3 (Build_SegmentData (Some "f") 1 None None)].
Proof. split; vm_compute; reflexivity. Qed.

(** ** Merging without modalities *)

Lemma merge_features_no_modality (self : Multimodal) :
  video_annotation self = None ->
  audio_annotation self = None ->
  voice_features self = None ->
  merge_features self = Ok (self, features self).
Proof.
  intros Hv Ha Hw.
  unfold merge_features, _merge_video_annotation, _merge_audio_text_features,
    _merge_voice_features, audio_annotation_true.
  rewrite Hv, Ha, Hw. reflexivity.
Qed.

(** C10. With all five modality containers absent, [merge_features] leaves
    the object (its [features] field included) as it was and returns the
    value [features] already had. *)
Theorem merge_features_keeps_features (self : Multimodal) :
  video_annotation self = None ->
  audio_annotation self = None ->
  voice_features self = None ->
  transcription self = None ->
  sentiment self = None ->
  merge_features self = Ok (self, features self).
Proof.
  intros Hv Ha Hw _ _. apply merge_features_no_modality; assumption.
Qed.

Lemma merge_features_keeps_features_witness :
  merge_features (bare (Some empty_table))
    = Ok (bare (Some empty_table), Some empty_table).
Proof.
  apply (merge_features_keeps_features (bare (Some empty_table)));
    reflexivity.
Defined.

(** C6, as stated, fails: a [Multimodal] built with a [features] table and
    no modality returns that table, not none. *)
Lemma merge_features_no_modality_not_none :
  video_annotation (bare (Some empty_table)) = None
  /\ audio_annotation (bare (Some empty_table)) = None
  /\ voice_features (bare (Some empty_table)) = None
  /\ transcription (bare (Some empty_table)) = None
  /\ sentiment (bare (Some empty_table)) = None
  /\ merge_features (bare (Some empty_table))
     <> Ok (bare (Some empty_table), None).
Proof. repeat split; try reflexivity. vm_compute. discriminate. Qed.

(** C6, amended. With all five modality containers absent and [features]
    none (the constructor's default), [merge_features] returns none: no
    table and no error. *)
Theorem merge_features_none (self : Multimodal) :
  video_annotation self = None ->
  audio_annotation self = None ->
  voice_features self = None ->
  transcription self = None ->
  sentiment self = None ->
  features self = None ->
  merge_features self = Ok (self, None).
Proof.
  intros Hv Ha Hw _ _ Hf.
  rewrite (merge_features_no_modality self Hv Ha Hw), Hf. reflexivity.
Qed.

Lemma merge_features_none_witness :
  merge_features (bare None) = Ok (bare None, None).
Proof. apply (merge_features_none (bare None)); reflexivity. Defined.

(** ** Arrays of different lengths *)

Lemma all_same_length_spec (cols : list (list pyval)) :
  all_same_length cols = true ->
  forall c1 c2, In c1 cols -> In c2 cols -> length c1 = length c2.
Proof.
  destruct cols as [ | c cs ]; simpl; [ intros _ c1 c2 [] | ].
  intros Hall.
  assert (Hc : forall x, In x (c :: cs) -> length x = length c).
  { intros x [ <- | Hx ]; [ reflexivity | ].
    rewrite forallb_forall in Hall. apply Nat.eqb_eq, Hall, Hx. }
  intros c1 c2 H1 H2. rewrite (Hc c1 H1), (Hc c2 H2). reflexivity.
Qed.

Lemma indexed_frame_mismatched (d : list (string * list pyval)) :
  mismatched d -> indexed_frame d = Raise ValueError.
Proof.
  intros (c1 & c2 & H1 & H2 & Hne). unfold indexed_frame.
  destruct (all_same_length (map snd d)) eqn:Hall; [ | reflexivity ].
  exfalso. apply Hne. eapply all_same_length_spec; eassumption.
Qed.

(** C8, as stated, fails: loading a record whose [frame] array has two
    entries and whose [time] array has one constructs the container; no
    error is raised at construction. *)
Lemma mismatched_lengths_are_constructed :
  VideoAnnotation.from_json short_time_doc = Ok short_time
  /\ length (VideoAnnotation.frame short_time)
     <> length (VideoAnnotation.time short_time).
Proof. split; [ vm_compute; reflexivity | simpl; lia ]. Qed.

(** C8, amended. A [VideoAnnotation] whose arrays are not all of one
    length is constructed without error; [merge_features] on a
    [Multimodal] holding it fails with the data-shape error ([ValueError])
    when it builds the video table, before any join, and truncates
    nothing. *)
Theorem mismatched_video_lengths_fail_in_merge
    (self : Multimodal) (va : VideoAnnotation.t) :
  video_annotation self = Some va ->
  mismatched (VideoAnnotation.asdict_items va) ->
  merge_features self = Raise ValueError.
Proof.
  intros Hv Hm. unfold merge_features, _merge_video_annotation.
  rewrite Hv, (indexed_frame_mismatched _ Hm). reflexivity.
Qed.

(** The same check guards the voice table, once the tables before it are
    built. *)
Lemma mismatched_voice_lengths_fail_in_merge
    (self : Multimodal) (vf : VoiceFeatures.t) (dfs : list DataFrame) :
  voice_features self = Some vf ->
  mismatched (VoiceFeatures.asdict_items vf) ->
  _merge_voice_features self dfs = Raise ValueError.
Proof.
  intros Hv Hm. unfold _merge_voice_features.
  rewrite Hv, (indexed_frame_mismatched _ Hm). reflexivity.
Qed.

Lemma mismatched_video_lengths_fail_in_merge_witness :
  merge_features with_short_time = Raise ValueError.
Proof.
  apply (mismatched_video_lengths_fail_in_merge with_short_time short_time).
  - reflexivity.
  - exists [PInt 0; PInt 1], [PFloat 0]. simpl. repeat split; auto.
Defined.

(** ** JSON files *)

Lemma filter_fields_lookup (fns : list string) (d : json_record) (k : string) :
  k ∈ fns -> filter_fields fns d !! k = d !! k.
Proof.
  intros Hk. unfold filter_fields. rewrite map_lookup_filter.
  destruct (d !! k) as [ v | ]; simpl; [ | reflexivity ].
  rewrite option_guard_True; [ reflexivity | exact Hk ].
Qed.


Lemma kwarg_default_filtered (fns : list string) (d : json_record) (k : string) :
  k ∈ fns -> kwarg_default (filter_fields fns d) k = default [] (d !! k).
Proof. intros Hk. unfold kwarg_default. rewrite filter_fields_lookup; auto. Qed.

Lemma kwarg_required_filtered (fns : list string) (d : json_record) (k : string) :
  k ∈ fns ->
  kwarg_required (filter_fields fns d) k
  = match d !! k with Some v => Ok v | None => Raise TypeError end.
Proof. intros Hk. unfold kwarg_required. rewrite filter_fields_lookup; auto. Qed.

Ltac is_field := apply list_elem_of_In; simpl; tauto.



Lemma known_kwargs_filter (fns : list string) (d : json_record) :
  known_kwargs fns (filter_fields fns d) = true.
Proof.
  unfold known_kwargs, filter_fields. apply bool_decide_eq_true.
  intros k v H. apply map_lookup_filter_Some in H. destruct H as [_ H].
  exact H.
Qed.





Lemma VideoAnnotation_from_json_lookup (file : json_file) :
  VideoAnnotation.from_json file
  = Ok (VideoAnnotation.Build
          (default [] (json_load file !! "frame"))
          (default [] (json_load file !! "time"))
          (default [] (json_load file !! "face_box"))
          (default [] (json_load file !! "face_prob"))
          (default [] (json_load file !! "face_landmarks"))
          (default [] (json_load file !! "face_aus"))
          (default [] (json_load file !! "face_label"))
          (default [] (json_load file !! "face_confidence"))).
Proof.
  unfold VideoAnnotation.from_json, VideoAnnotation._from_dict,
    VideoAnnotation.__init__.
  rewrite known_kwargs_filter.
  rewrite !kwarg_default_filtered by is_field. reflexivity.
Qed.

Lemma VoiceFeatures_from_json_lookup (file : json_file) :
  VoiceFeatures.from_json file
  = match json_load file !! "frame", json_load file !! "time" with
    | Some f, Some tm =>
        Ok (VoiceFeatures.Build f tm
              (default [] (json_load file !! "pitch_f0")))
    | _, _ => Raise TypeError
    end.
Proof.
  unfold VoiceFeatures.from_json, VoiceFeatures._from_dict,
    VoiceFeatures.__init__.
  rewrite known_kwargs_filter.
  rewrite !kwarg_required_filtered, kwarg_default_filtered by is_field.
  destruct (json_load file !! "frame"), (json_load file !! "time");
    reflexivity.
Qed.

Lemma SentimentAnnotation_from_json_lookup (file : json_file) :
  SentimentAnnotation.from_json file
  = match json_load file !! "sentiment" with
    | None => Raise KeyError
    | Some l =>
        xs ← SentimentAnnotation.Sentiments_of l;
        Ok (SentimentAnnotation.Build xs)
    end.
Proof.
  unfold SentimentAnnotation.from_json, SentimentAnnotation.from_dict,
    SentimentAnnotation.__init__.
  rewrite known_kwargs_filter.
  rewrite filter_fields_lookup by is_field. reflexivity.
Qed.









(** ** Tables built from a list of appended rows *)

Section Events.

Context {E : Type}.
Variables ff ft : E -> pyval.
Variable cells : list (string * (E -> pyval)).

Lemma rows_of_events (gs : list (E -> pyval)) (ev : list E) :
  zip (zip (map ff ev) (map ft ev))
      (rows_of (length (map ff ev)) (map (fun g => map g ev) gs))
  = map (fun e => ((ff e, ft e), map (fun g => g e) gs)) ev.
Proof.
  induction ev as [ | e ev IH ]; simpl; [ reflexivity | ].
  rewrite !map_map. simpl. rewrite IH. reflexivity.
Qed.

Hypothesis cells_not_index :
  forallb (fun nf => negb (is_index_name (fst nf))) cells = true.

Lemma filter_cells (ev : list E) :
  List.filter (fun kv : string * list pyval => negb (is_index_name (fst kv)))
    (map (fun nf => (fst nf, map (snd nf) ev)) cells)
  = map (fun nf => (fst nf, map (snd nf) ev)) cells.
Proof.
  revert cells_not_index. induction cells as [ | c cs IH ]; simpl;
    [ reflexivity | ].
  intros H. apply andb_prop in H. destruct H as [Hc Hcs].
  rewrite Hc, (IH Hcs). reflexivity.
Qed.

Lemma all_same_length_events (ev : list E) :
  all_same_length (map snd (event_columns ff ft cells ev)) = true.
Proof.
  unfold event_columns. simpl. rewrite !length_map, Nat.eqb_refl. simpl.
  apply forallb_forall. intros c Hc.
  rewrite map_map in Hc. apply in_map_iff in Hc.
  destruct Hc as (nf & <- & _). simpl.
  rewrite !length_map. apply Nat.eqb_refl.
Qed.

Lemma indexed_frame_events (ev : list E) :
  indexed_frame (event_columns ff ft cells ev)
  = Ok (Build_DataFrame (map fst cells) (map (event_row ff ft cells) ev)).
Proof.
  unfold indexed_frame. rewrite all_same_length_events.
  unfold event_columns. simpl. rewrite filter_cells.
  assert (Hcols : map snd (map (fun nf : string * (E -> pyval) =>
                                  (fst nf, map (snd nf) ev)) cells)
                  = map (fun g : E -> pyval => map g ev) (map snd cells)).
  { rewrite !map_map. reflexivity. }
  rewrite Hcols, rows_of_events, map_map. simpl.
  f_equal. f_equal.
  apply map_ext. intros e. unfold event_row. rewrite map_map. reflexivity.
Qed.

End Events.

(** ** The left join *)

Lemma merge_row_keys (right : DataFrame) (r : key * list pyval) (k : key) :
  In k (map fst (merge_row right r)) <-> k = fst r.
Proof.
  unfold merge_row. destruct (matching (fst r) right) as [ | m ms ]; simpl.
  - intuition congruence.
  - rewrite map_map. simpl. split.
    + intros [ H | H ]; [ congruence | ].
      apply in_map_iff in H. destruct H as (x & <- & _). reflexivity.
    + intros ->. left. reflexivity.
Qed.

Lemma merge_left_keys (left right : DataFrame) (k : key) :
  In k (map fst (rows (merge_left left right))) <-> In k (map fst (rows left)).
Proof.
  unfold merge_left. simpl. rewrite in_map_iff. split.
  - intros (x & <- & Hx). apply in_flat_map in Hx.
    destruct Hx as (r & Hr & Hx).
    assert (Hk : fst x = fst r).
    { apply (merge_row_keys right r). apply in_map. exact Hx. }
    rewrite Hk. apply in_map. exact Hr.
  - intros Hk. apply in_map_iff in Hk. destruct Hk as (r & <- & Hr).
    assert (Hin : In (fst r) (map fst (merge_row right r))).
    { apply merge_row_keys. reflexivity. }
    apply in_map_iff in Hin. destruct Hin as (x & Hx1 & Hx2).
    exists x. split; [ exact Hx1 | ].
    apply in_flat_map. exists r. split; assumption.
Qed.

Lemma merge_left_In (left right : DataFrame) (k k' : key)
    (vs ws : list pyval) :
  In (k, vs) (rows left) -> In (k', ws) (rows right) ->
  key_eqb k k' = true ->
  In (k, vs ++ ws) (rows (merge_left left right)).
Proof.
  intros Hl Hr Hk. unfold merge_left. simpl.
  apply in_flat_map. exists (k, vs). split; [ exact Hl | ].
  unfold merge_row. simpl.
  assert (Hm : In ws (matching k right)).
  { unfold matching. apply in_map_iff. exists (k', ws). split; [ reflexivity | ].
    apply filter_In. split; [ exact Hr | exact Hk ]. }
  destruct (matching k right) as [ | m ms ]; [ destruct Hm | ].
  apply (in_map (fun cells => (k, vs ++ cells)) (m :: ms) ws Hm).
Qed.

Lemma reduce_merge_columns (others : list DataFrame) (first : DataFrame) :
  columns (reduce_merge first others)
  = columns first ++ concat (map columns others).
Proof.
  unfold reduce_merge. revert first.
  induction others as [ | df others IH ]; intros first; simpl.
  - rewrite app_nil_r. reflexivity.
  - rewrite IH. simpl. rewrite <- app_assoc. reflexivity.
Qed.

Lemma reduce_merge_keys (others : list DataFrame) (first : DataFrame) (k : key) :
  In k (map fst (rows (reduce_merge first others)))
  <-> In k (map fst (rows first)).
Proof.
  unfold reduce_merge. revert first.
  induction others as [ | df others IH ]; intros first; simpl.
  - reflexivity.
  - rewrite IH. apply merge_left_keys.
Qed.

Lemma py_eqb_int_refl (z : Z) : py_eqb (PInt z) (PInt z) = true.
Proof. simpl. apply Z.eqb_refl. Qed.

Lemma py_eqb_float_refl (q : Q) : py_eqb (PFloat q) (PFloat q) = true.
Proof. simpl. apply Qeq_bool_iff. reflexivity. Qed.

Lemma key_eqb_axis_refl (i : Z) (t : Q) :
  key_eqb (PInt i, PFloat t) (PInt i, PFloat t) = true.
Proof.
  unfold key_eqb. simpl fst. simpl snd.
  rewrite py_eqb_int_refl, py_eqb_float_refl. reflexivity.
Qed.

Lemma matching_In (right : DataFrame) (k : key) (ws : list pyval) :
  In ws (matching k right)
  <-> exists k', In (k', ws) (rows right) /\ key_eqb k k' = true.
Proof.
  unfold matching. rewrite in_map_iff. split.
  - intros ([k' ws'] & Hws & Hin). simpl in Hws. subst ws'.
    apply filter_In in Hin. destruct Hin as [Hin Hk].
    exists k'. split; assumption.
  - intros (k' & Hin & Hk). exists (k', ws). split; [ reflexivity | ].
    apply filter_In. split; assumption.
Qed.

Lemma matching_nil (right : DataFrame) (k : key) :
  matching k right = []
  <-> forall r, In r (rows right) -> key_eqb k (fst r) = false.
Proof.
  split.
  - intros Hm [k' ws] Hin. simpl.
    destruct (key_eqb k k') eqn:Hk; [ exfalso | reflexivity ].
    assert (H : In ws (matching k right)).
    { apply matching_In. exists k'. split; assumption. }
    rewrite Hm in H. destruct H.
  - intros Hall. destruct (matching k right) as [ | ws ms ] eqn:Hm;
      [ reflexivity | exfalso ].
    assert (H : In ws (matching k right)) by (rewrite Hm; left; reflexivity).
    apply matching_In in H. destruct H as (k' & Hin & Hk).
    pose proof (Hall (k', ws) Hin) as Hf. simpl in Hf. congruence.
Qed.

(** The rows of [merge_left] are the rows of the left outer join. *)
Lemma merge_left_rows (left right : DataFrame) (row : key * list pyval) :
  In row (rows (merge_left left right)) <-> left_outer_row left right row.
Proof.
  unfold merge_left, left_outer_row. simpl. rewrite in_flat_map. split.
  - intros ([k vs] & Hl & Hrow). unfold merge_row in Hrow.
    cbn [fst snd] in Hrow.
    destruct (matching k right) as [ | m ms ] eqn:Hm.
    + destruct Hrow as [ <- | [] ]. simpl. exists vs.
      split; [ exact Hl | ]. right.
      split; [ apply matching_nil, Hm | reflexivity ].
    + apply in_map_iff in Hrow. destruct Hrow as (ws & <- & Hws). simpl.
      rewrite <- Hm in Hws. apply matching_In in Hws.
      destruct Hws as (k' & Hin & Hk).
      exists vs. split; [ exact Hl | ]. left.
      exists k', ws. repeat split; assumption.
  - destruct row as [k cells]. simpl.
    intros (vs & Hl & [ (k' & ws & Hin & Hk & ->) | (Hnone & ->) ]).
    + exists (k, vs). split; [ exact Hl | ].
      assert (Hws : In ws (matching k right)).
      { apply matching_In. exists k'. split; assumption. }
      unfold merge_row. simpl.
      destruct (matching k right) as [ | m ms ]; [ destruct Hws | ].
      apply (in_map (fun c => (k, vs ++ c)) (m :: ms) ws Hws).
    + exists (k, vs). split; [ exact Hl | ].
      apply matching_nil in Hnone.
      unfold merge_row. simpl. rewrite Hnone. left. reflexivity.
Qed.

(** With at most one row of [right] for each key of [left], the join
    keeps the rows of [left] one for one and in their order. *)
Lemma merge_left_one_for_one (left right : DataFrame) :
  (forall r, In r (rows left) ->
     (length (matching (fst r) right) <= 1)%nat) ->
  map fst (rows (merge_left left right)) = map fst (rows left).
Proof.
  unfold merge_left. simpl.
  induction (rows left) as [ | r l IH ]; intros H; [ reflexivity | ].
  simpl. rewrite map_app, IH by (intros x Hx; apply H; right; exact Hx).
  f_equal. pose proof (H r (or_introl eq_refl)) as Hr.
  unfold merge_row.
  destruct (matching (fst r) right) as [ | m [ | m' ms ] ];
    [ reflexivity | reflexivity | simpl in Hr; lia ].
Qed.

Lemma reduce_merge_snoc (first : DataFrame) (others : list DataFrame)
    (last : DataFrame) :
  reduce_merge first (others ++ [last])
  = merge_left (reduce_merge first others) last.
Proof. unfold reduce_merge. rewrite fold_left_app. reflexivity. Qed.

(** ** The order of the joins *)

(** C9. [merge_features] builds the video, audio/text and voice tables in
    that order, each only when its modality is there, and joins those that
    exist from the left on [(frame, time)]: an absent modality gives no
    table, the columns of the result are the columns of the tables joined,
    in order, and its keys are the keys of the first table.  Each join is
    the left outer join: its rows are the rows of the table on the left,
    each extended by the cells of a row of the table on the right with an
    equal key, or by missing values when there is none; with at most one
    such row for each key, the rows stay one for one and in order.  The
    joins are taken one table after the other, the last table joined
    last.  For two video frames, a speech segment over the first and the
    pitch of the first, the merged table has the columns of the three
    tables in that order, the first row filled from all three, the second
    with missing values for speech and pitch. *)
Theorem merge_features_joins_in_order (self : Multimodal) :
  merge_features self
  = (v ← video_table self; a ← audio_text_table self; w ← voice_table self;
     Ok (joined_in_order self v a w))
  /\ (video_annotation self = None -> video_table self = Ok None)
  /\ (audio_annotation self = None -> audio_text_table self = Ok None)
  /\ (voice_features self = None -> voice_table self = Ok None)
  /\ (forall first others,
        columns (reduce_merge first others)
        = concat (map columns (first :: others)))
  /\ (forall first others k,
        In k (map fst (rows (reduce_merge first others)))
        <-> In k (map fst (rows first)))
  /\ (forall left right row,
        In row (rows (merge_left left right))
        <-> left_outer_row left right row)
  /\ (forall left right,
        (forall r, In r (rows left) ->
           (length (matching (fst r) right) <= 1)%nat) ->
        map fst (rows (merge_left left right)) = map fst (rows left))
  /\ (forall first, reduce_merge first [] = first)
  /\ (forall first others last,
        reduce_merge first (others ++ [last])
        = merge_left (reduce_merge first others) last)
  /\ returned (merge_features three_modalities)
     = Ok (Some
             (Build_FlatFrame
                ["frame"; "time"; "face_box"; "face_prob"; "face_landmarks";
                 "face_aus"; "face_label"; "face_confidence";
                 "segment_start"; "segment_end"; "segment_speaker_label";
                 "pitch_f0"]
                [[PInt 0; PFloat 0; PNaN; PNaN; PNaN; PNaN; PNaN; PNaN;
                  PFloat 0; PFloat 2; PStr "A"; PFloat 100];
                 [PInt 1; PFloat (1 # 30); PNaN; PNaN; PNaN; PNaN; PNaN;
                  PNaN; PNaN; PNaN; PNaN; PNaN]])).
Proof.
  split; [ | split; [ | split; [ | split; [ | split; [ | split;
    [ | split; [ | split; [ | split; [ | split ] ] ] ] ] ] ] ] ].
  - unfold merge_features, video_table, audio_text_table, voice_table,
      _merge_video_annotation, _merge_audio_text_features,
      _merge_voice_features, joined_in_order.
    destruct (video_annotation self) as [ va | ];
      [ destruct (indexed_frame (VideoAnnotation.asdict_items va))
          as [ v | e ]; [ | reflexivity ] | ];
      (destruct (audio_annotation_true self) as [ tree | ];
       [ destruct (audio_text_features_df self tree) as [ a | e ];
         [ | reflexivity ] | ]);
      (destruct (voice_features self) as [ vf | ];
       [ destruct (indexed_frame (VoiceFeatures.asdict_items vf))
           as [ w | e ]; [ | reflexivity ] | ]);
      reflexivity.
  - intros H. unfold video_table. rewrite H. reflexivity.
  - intros H. unfold audio_text_table, audio_annotation_true. rewrite H.
    reflexivity.
  - intros H. unfold voice_table. rewrite H. reflexivity.
  - intros first others. simpl. apply reduce_merge_columns.
  - intros first others k. apply reduce_merge_keys.
  - apply merge_left_rows.
  - apply merge_left_one_for_one.
  - reflexivity.
  - apply reduce_merge_snoc.
  - vm_compute. reflexivity.
Qed.

(** ** Transcripts in the audio/text step *)

Lemma audio_frame (ev : list (Z * Q * Segment)) :
  indexed_frame (audio_annotation_dict ev)
  = Ok (Build_DataFrame (map fst audio_cells)
          (map (event_row (fun e => PInt (fst (fst e)))
                          (fun e => PFloat (snd (fst e))) audio_cells) ev)).
Proof.
  change (audio_annotation_dict ev)
    with (event_columns (fun e : Z * Q * Segment => PInt (fst (fst e)))
                        (fun e => PFloat (snd (fst e))) audio_cells ev).
  apply indexed_frame_events. reflexivity.
Qed.

(** C5, as stated, fails: a [Multimodal] with a transcript and no Segment
    collection, whose span covers the axis point 0, gets no merged table
    at all, so the span gives no row. *)
Lemma transcript_without_segments_gives_no_rows :
  audio_annotation only_transcript = None
  /\ transcription_true only_transcript
     = Some (Build_AudioTranscription "video.srt" [hello_span])
  /\ merge_axis only_transcript = Ok [(0, 0%Q); (1, 1%Q)]
  /\ subtitles_at [hello_span] 0 = [hello_span]
  /\ merge_features only_transcript = Ok (only_transcript, None).
Proof. repeat split; vm_compute; reflexivity. Qed.

(** C5, amended. When a [Multimodal] holds a transcript but no (non-empty)
    Segment collection, the audio/text step appends no table and no span
    is matched to any axis point: [merge_features] returns what it
    returns for the same object without transcript and sentiment. *)
Theorem transcript_without_segments_is_ignored
    (self : Multimodal) (dfs : list DataFrame) :
  audio_annotation_true self = None ->
  _merge_audio_text_features self dfs = Ok dfs
  /\ returned (merge_features self)
     = returned (merge_features (without_text self)).
Proof.
  intros Ha.
  assert (Hstep : forall d, _merge_audio_text_features self d = Ok d).
  { intros d. unfold _merge_audio_text_features. rewrite Ha. reflexivity. }
  assert (Hstep' : forall d,
             _merge_audio_text_features (without_text self) d = Ok d).
  { intros d. unfold _merge_audio_text_features.
    change (audio_annotation_true (without_text self))
      with (audio_annotation_true self).
    rewrite Ha. reflexivity. }
  split; [ apply Hstep | ].
  unfold merge_features.
  change (_merge_video_annotation (without_text self))
    with (_merge_video_annotation self).
  change (_merge_voice_features (without_text self))
    with (_merge_voice_features self).
  destruct (_merge_video_annotation self []) as [ d1 | e ]; [ | reflexivity ].
  simpl. rewrite Hstep, Hstep'. simpl.
  destruct (_merge_voice_features self d1) as [ [ | first others ] | e ];
    reflexivity.
Qed.

Lemma transcript_without_segments_is_ignored_witness :
  _merge_audio_text_features only_transcript [] = Ok []
  /\ returned (merge_features only_transcript)
     = returned (merge_features (without_text only_transcript)).
Proof.
  apply (transcript_without_segments_is_ignored only_transcript []).
  reflexivity.
Defined.

(** ** Sentiment scores *)

(** C3. The scenario of the specification: one speaker segment, the one
    span "hello" of index 0 covering the axis point 0, and the one
    sentiment of index 0, which [zip] pairs with it.  The merge reads the
    span, an [Interval(begin, end, data)], through [span.start], which it
    does not have: [merge_features] raises [AttributeError] and gives no
    row; so it does with two sentences. *)
Theorem sentiment_scenario_raises :
  merge_axis one_sentence = Ok [(0, 0%Q)]
  /\ zip (subtitles_at [hello_span] 0) [sent0] = [(hello_span, sent0)]
  /\ PInt (index (span_data hello_span)) = sent_index sent0
  /\ merge_features one_sentence = Raise AttributeError
  /\ merge_features two_sentences = Raise AttributeError.
Proof. repeat split; vm_compute; reflexivity. Qed.


(** * Further properties *)

(** ** Printing and parsing numbers *)

Lemma append_cons (a : ascii) (s t : string) :
  String a s +:+ t = String a (s +:+ t).
Proof. reflexivity. Qed.

Lemma append_empty_l (t : string) : "" +:+ t = t.
Proof. reflexivity. Qed.

Lemma rev_app_rev_app (s t u : string) :
  String.rev_app (String.rev_app s t) u = String.rev_app t (s +:+ u).
Proof.
  revert t u. induction s as [ | a s IH ]; intros t u; simpl.
  - reflexivity.
  - rewrite IH. reflexivity.
Qed.

Lemma append_empty_r (s : string) : s +:+ "" = s.
Proof.
  induction s as [ | a s IH ]; [ reflexivity | ].
  rewrite append_cons, IH. reflexivity.
Qed.

Lemma append_assoc (s t u : string) : (s +:+ t) +:+ u = s +:+ (t +:+ u).
Proof.
  induction s as [ | a s IH ]; [ reflexivity | ].
  rewrite !append_cons, IH. reflexivity.
Qed.

Lemma rev_rev_app (s : string) : String.rev (String.rev_app s "") = s.
Proof.
  unfold String.rev. rewrite rev_app_rev_app. simpl. apply append_empty_r.
Qed.

Lemma digit_of_pretty_N_char (d : N) :
  (d < 10)%N -> digit_of (pretty_N_char d) = Some (Z.of_N d).
Proof.
  intros Hd.
  assert (H : (d = 0 \/ d = 1 \/ d = 2 \/ d = 3 \/ d = 4 \/ d = 5 \/ d = 6
               \/ d = 7 \/ d = 8 \/ d = 9)%N) by lia.
  repeat (destruct H as [ -> | H ]; [ reflexivity | ]). subst d. reflexivity.
Qed.

Lemma plain_pretty_N_char (d : N) (s : string) :
  plain (String (pretty_N_char d) s) = plain s.
Proof. unfold pretty_N_char. repeat case_match; reflexivity. Qed.

Lemma read_sign_pretty_N_char (d : N) (s : string) :
  read_sign (String (pretty_N_char d) s) = (false, String (pretty_N_char d) s).
Proof. unfold pretty_N_char. repeat case_match; reflexivity. Qed.

Lemma pretty_N_go_app (x : N) (s t : string) :
  pretty_N_go x s +:+ t = pretty_N_go x (s +:+ t).
Proof.
  revert s. induction (N.lt_wf_0 x) as [x _ IH]; intros s.
  destruct (N.eq_dec x 0%N) as [ -> | Hx ].
  - rewrite !pretty_N_go_0. reflexivity.
  - rewrite (pretty_N_go_step x s), (pretty_N_go_step x (s +:+ t)) by lia.
    rewrite IH; [ reflexivity | ]. apply N.div_lt; lia.
Qed.

Lemma plain_pretty_N_go (x : N) (s : string) :
  plain (pretty_N_go x s) = plain s.
Proof.
  revert s. induction (N.lt_wf_0 x) as [x _ IH]; intros s.
  destruct (N.eq_dec x 0%N) as [ -> | Hx ].
  - rewrite pretty_N_go_0. reflexivity.
  - rewrite pretty_N_go_step by lia. rewrite IH by (apply N.div_lt; lia).
    apply plain_pretty_N_char.
Qed.

(** The digits of [x] in front of [s] are read back as [x]. *)
Lemma read_digits_pretty_N_go (x : N) :
  exists k : nat,
    ((0 < x)%N -> (0 < k)%nat)
    /\ forall s acc count,
         read_digits (pretty_N_go x s) acc count
         = read_digits s (acc * 10 ^ Z.of_nat k + Z.of_N x) (count + k).
Proof.
  induction (N.lt_wf_0 x) as [x _ IH].
  destruct (N.eq_dec x 0%N) as [ -> | Hx ].
  - exists 0%nat. split; [ lia | ]. intros s acc count.
    rewrite pretty_N_go_0. f_equal; [ f_equal; simpl; lia | lia ].
  - destruct (IH (x `div` 10)%N) as (k & _ & Hk); [ apply N.div_lt; lia | ].
    exists (S k). split; [ lia | ]. intros s acc count.
    rewrite pretty_N_go_step by lia. rewrite Hk. simpl read_digits.
    rewrite digit_of_pretty_N_char by (apply N.mod_lt; lia).
    assert (Harith : 10 * (acc * 10 ^ Z.of_nat k + Z.of_N (x `div` 10)%N)
                     + Z.of_N (x `mod` 10)%N
                     = acc * 10 ^ Z.of_nat (S k) + Z.of_N x).
    { rewrite Nat2Z.inj_succ, Z.pow_succ_r by lia.
      rewrite N2Z.inj_div, N2Z.inj_mod.
      pose proof (Z.div_mod (Z.of_N x) 10). change (Z.of_N 10) with 10. lia. }
    rewrite Harith. f_equal. lia.
Qed.

Lemma pretty_N_go_head (x : N) (s : string) :
  (0 < x)%N ->
  exists d s', pretty_N_go x s = String (pretty_N_char d) s'.
Proof.
  revert s. induction (N.lt_wf_0 x) as [x _ IH]; intros s Hx.
  rewrite pretty_N_go_step by lia.
  destruct (N.eq_dec (x `div` 10)%N 0%N) as [ -> | Hq ].
  - rewrite pretty_N_go_0. eauto.
  - apply IH; [ apply N.div_lt; lia | apply N.neq_0_lt_0; exact Hq ].
Qed.

Lemma plain_app (s t : string) : plain (s +:+ t) = plain s && plain t.
Proof.
  induction s as [ | a s IH ]; [ reflexivity | ].
  rewrite append_cons. simpl. rewrite IH, andb_assoc. reflexivity.
Qed.

Lemma pretty_Z_pos (z : Z) :
  0 < z -> pretty z = pretty_N_go (Z.to_N z) "".
Proof.
  destruct z as [ | p | p ]; try lia. intros _.
  unfold pretty, pretty_Z, pretty, pretty_positive, pretty, pretty_N.
  case_decide; [ discriminate | reflexivity ].
Qed.

Lemma read_digits_pretty (z : Z) :
  0 <= z ->
  exists k : nat,
    (0 < k)%nat
    /\ forall t acc count,
         read_digits (pretty z +:+ t) acc count
         = read_digits t (acc * 10 ^ Z.of_nat k + z) (count + k).
Proof.
  intros Hz. destruct (Z.eq_dec z 0) as [ -> | Hne ].
  - exists 1%nat. split; [ lia | ]. intros t acc count.
    change (pretty 0 +:+ t) with (String "0" t). simpl read_digits.
    f_equal; [ f_equal; lia | lia ].
  - destruct (read_digits_pretty_N_go (Z.to_N z)) as (k & Hk & Hread).
    exists k. split; [ apply Hk; lia | ]. intros t acc count.
    rewrite pretty_Z_pos by lia. rewrite pretty_N_go_app, append_empty_l.
    rewrite Hread, Z2N.id by lia. reflexivity.
Qed.

Lemma read_sign_pretty (z : Z) (t : string) :
  0 <= z -> read_sign (pretty z +:+ t) = (false, pretty z +:+ t).
Proof.
  intros Hz. destruct (Z.eq_dec z 0) as [ -> | Hne ]; [ reflexivity | ].
  rewrite pretty_Z_pos by lia.
  destruct (pretty_N_go_head (Z.to_N z) "") as (d & s' & Hd); [ lia | ].
  rewrite Hd, append_cons. apply read_sign_pretty_N_char.
Qed.

Lemma plain_pretty (z : Z) : plain (pretty z) = true.
Proof.
  assert (Hpos : forall y, 0 <= y -> plain (pretty y) = true).
  { intros y Hy. destruct (Z.eq_dec y 0) as [ -> | Hne ]; [ reflexivity | ].
    rewrite pretty_Z_pos by lia. apply plain_pretty_N_go. }
  destruct z as [ | p | p ]; [ reflexivity | apply Hpos; lia | ].
  change (pretty (Z.neg p)) with ("-" +:+ pretty (Z.pos p)).
  rewrite plain_app, (Hpos (Z.pos p)) by lia. reflexivity.
Qed.

Lemma py_int_nonneg (negative : bool) (z : Z) :
  0 <= z ->
  (let '(n, count, rest) := read_digits (pretty z) 0 0 in
   match count, rest with
   | S _, EmptyString => Ok (if negative then - n else n)
   | _, _ => Raise ValueError
   end) = Ok (if negative then - z else z).
Proof.
  intros Hz. destruct (read_digits_pretty z Hz) as (k & Hk & Hread).
  rewrite <- (append_empty_r (pretty z)), Hread. simpl.
  destruct k as [ | k ]; [ lia | ].
  replace (0 + z) with z by lia. reflexivity.
Qed.

(** [int(str(z))] is [z]. *)
Lemma py_int_str_int (z : Z) : py_int (str_int z) = Ok z.
Proof.
  unfold py_int, str_int. destruct (Z_lt_le_dec z 0) as [ Hneg | Hpos ].
  - destruct z as [ | p | p ]; try lia.
    change (pretty (Z.neg p)) with (String "-" (pretty (Z.pos p))).
    simpl read_sign. cbv iota beta.
    rewrite (py_int_nonneg true (Z.pos p)) by lia. reflexivity.
  - rewrite <- (append_empty_r (pretty z)), read_sign_pretty by lia.
    rewrite append_empty_r. apply (py_int_nonneg false z Hpos).
Qed.

Lemma pretty_digit (d : Z) :
  0 <= d < 10 -> pretty d = String (pretty_N_char (Z.to_N d)) "".
Proof.
  intros Hd.
  assert (H : d = 0 \/ d = 1 \/ d = 2 \/ d = 3 \/ d = 4 \/ d = 5 \/ d = 6
              \/ d = 7 \/ d = 8 \/ d = 9) by lia.
  repeat (destruct H as [ -> | H ]; [ reflexivity | ]). subst d. reflexivity.
Qed.

Lemma read_digit (d : Z) (s : string) (acc : Z) (count : nat) :
  0 <= d < 10 ->
  read_digits (pretty d +:+ s) acc count
  = read_digits s (10 * acc + d) (S count).
Proof.
  intros Hd. rewrite pretty_digit by exact Hd. rewrite append_cons.
  simpl read_digits. rewrite digit_of_pretty_N_char by lia.
  rewrite Z2N.id by lia. reflexivity.
Qed.

Lemma read_frac_text (frac : Z) :
  0 <= frac < 100 ->
  exists (m : Z) (c : nat),
    read_digits (frac_text frac) 0 0 = (m, c, EmptyString)
    /\ (0 < c)%nat
    /\ (m # Pos.of_nat (Nat.pow 10 c) == frac # 100)%Q.
Proof.
  intros Hf. unfold frac_text.
  assert (Hd1 : 0 <= frac / 10 < 10).
  { split; [ apply Z.div_pos; lia | apply Z.div_lt_upper_bound; lia ]. }
  assert (Hd2 : 0 <= frac mod 10 < 10) by (apply Z.mod_pos_bound; lia).
  pose proof (Z.div_mod frac 10) as Hdm.
  destruct (frac mod 10 =? 0) eqn:Hz.
  - apply Z.eqb_eq in Hz. exists (frac / 10), 1%nat.
    rewrite <- (append_empty_r (pretty (frac / 10))), read_digit by exact Hd1.
    simpl read_digits. split; [ f_equal; f_equal; lia | ].
    split; [ lia | ]. unfold Qeq. simpl. lia.
  - exists (10 * (frac / 10) + frac mod 10), 2%nat.
    rewrite read_digit by exact Hd1.
    rewrite <- (append_empty_r (pretty (frac mod 10))), read_digit
      by exact Hd2.
    simpl read_digits. split; [ f_equal; f_equal; lia | ].
    split; [ lia | ]. unfold Qeq. simpl. lia.
Qed.

Lemma plain_frac_text (frac : Z) : plain (frac_text frac) = true.
Proof.
  unfold frac_text. destruct (frac mod 10 =? 0).
  - apply plain_pretty.
  - rewrite plain_app, !plain_pretty. reflexivity.
Qed.

Lemma str_float2_unfold (q : Q) :
  str_float2 q
  = (if round2_hundredths q <? 0 then "-" else "")
    +:+ pretty (Z.abs (round2_hundredths q) / 100)
    +:+ "." +:+ frac_text (Z.abs (round2_hundredths q) mod 100).
Proof. reflexivity. Qed.

Lemma plain_str_float2 (q : Q) : plain (str_float2 q) = true.
Proof.
  rewrite str_float2_unfold, !plain_app, plain_pretty, plain_frac_text.
  destruct (round2_hundredths q <? 0); reflexivity.
Qed.

Lemma py_float_read_sign (s : string) :
  py_float s = float_digits (fst (read_sign s)) (snd (read_sign s)).
Proof. unfold py_float. destruct (read_sign s). reflexivity. Qed.

Lemma py_float_digits (negative : bool) (ip frac : Z) :
  0 <= ip -> 0 <= frac < 100 ->
  float_digits negative (pretty ip +:+ "." +:+ frac_text frac)
  = Ok (Qred (if negative then - (100 * ip + frac # 100)
              else (100 * ip + frac # 100))%Q).
Proof.
  intros Hip Hfrac. unfold float_digits.
  destruct (read_digits_pretty ip Hip) as (k & Hk & Hread).
  destruct (read_frac_text frac Hfrac) as (m & c & Hm & Hc & Heq).
  rewrite Hread. change ("." +:+ frac_text frac) with (String "." (frac_text frac)).
  simpl read_digits. cbv iota beta. rewrite Hm.
  destruct k as [ | k ]; [ lia | ]. simpl plus. cbv iota beta.
  f_equal. apply Qred_complete.
  assert (Hsum : (inject_Z (0 * 10 ^ Z.of_nat (S k) + ip)
                  + (m # Pos.of_nat (10 ^ c)) == 100 * ip + frac # 100)%Q).
  { rewrite Heq. unfold Qeq, Qplus, inject_Z. simpl. lia. }
  destruct negative; rewrite Hsum; reflexivity.
Qed.

(** [float(str(round(x, 2)))] is [round(x, 2)]. *)
Lemma py_float_str_float2 (q : Q) : py_float (str_float2 q) = Ok (round2 q).
Proof.
  rewrite py_float_read_sign, str_float2_unfold. unfold round2.
  set (h := round2_hundredths q).
  assert (Hip : 0 <= Z.abs h / 100) by (apply Z.div_pos; lia).
  assert (Hfrac : 0 <= Z.abs h mod 100 < 100) by (apply Z.mod_pos_bound; lia).
  pose proof (Z.div_mod (Z.abs h) 100) as Hdm.
  destruct (h <? 0) eqn:Hneg.
  - apply Z.ltb_lt in Hneg. rewrite append_cons, append_empty_l.
    simpl read_sign. simpl fst. simpl snd.
    rewrite (py_float_digits true _ _ Hip Hfrac). f_equal.
    apply Qred_complete. unfold Qeq, Qopp. simpl. lia.
  - apply Z.ltb_ge in Hneg. rewrite append_empty_l.
    rewrite read_sign_pretty by exact Hip. simpl fst. simpl snd.
    rewrite (py_float_digits false _ _ Hip Hfrac). f_equal.
    apply Qred_complete. unfold Qeq. simpl. lia.
Qed.

(** ** Rows of an RTTM file *)

Lemma split_space_go_char (c : ascii) (s cur : string) :
  Ascii.eqb c " " = false ->
  split_space_go (String c s) cur = split_space_go s (String c cur).
Proof.
  intros Hc. destruct c as [[] [] [] [] [] [] [] []];
    first [ reflexivity | discriminate Hc ].
Qed.

Lemma split_space_go_cell (s rest cur : string) :
  plain s = true ->
  split_space_go (s +:+ String " " rest) cur
  = String.rev (String.rev_app s cur) :: split_space_go rest "".
Proof.
  revert cur. induction s as [ | a s IH ]; intros cur Hs.
  - reflexivity.
  - simpl in Hs. apply andb_prop in Hs. destruct Hs as [Ha Hs].
    apply andb_prop in Ha. destruct Ha as [Ha _].
    apply andb_prop in Ha. destruct Ha as [Ha _].
    apply negb_true_iff in Ha.
    rewrite append_cons, split_space_go_char by exact Ha.
    rewrite IH by exact Hs. reflexivity.
Qed.

Lemma split_space_cells (cells : list string) (rest : string) :
  forallb plain cells = true ->
  split_space (concat_strings (map (fun t => t +:+ " ") cells) +:+ rest)
  = cells ++ split_space rest.
Proof.
  induction cells as [ | t cells IH ]; intros Hp; [ reflexivity | ].
  simpl in Hp. apply andb_prop in Hp. destruct Hp as [Ht Hp].
  simpl map. simpl concat_strings. rewrite !append_assoc.
  change (" " +:+ ?x) with (String " " x).
  unfold split_space at 1. rewrite split_space_go_cell by exact Ht.
  rewrite rev_rev_app. simpl. f_equal. apply (IH Hp).
Qed.

Lemma print_col_text (end_sep : string) (cols : list rttm_col) :
  map (print_col end_sep) cols = map (fun t => t +:+ end_sep) (map col_text cols).
Proof.
  rewrite map_map. apply map_ext. intros [ | s | z | q ]; reflexivity.
Qed.

Lemma plain_segment_cols (seg : Segment) :
  plain_segment seg = true ->
  forallb plain (map col_text (segment_cols seg)) = true.
Proof.
  unfold plain_segment, plain_option. intros H. apply andb_prop in H.
  destruct H as [Hf Hn]. simpl.
  rewrite !plain_str_float2. unfold str_int. rewrite plain_pretty.
  destruct (seg_filename (data seg)) as [ f | ];
    destruct (name (data seg)) as [ n | ];
    destruct (conf (data seg)) as [ c | ]; simpl;
    rewrite ?Hf, ?Hn, ?plain_str_float2; reflexivity.
Qed.

Lemma split_print_segment (seg : Segment) :
  plain_segment seg = true ->
  split_space (print_segment " " seg)
  = map col_text (segment_cols seg) ++ [newline].
Proof.
  intros Hp. unfold print_segment. rewrite print_col_text.
  rewrite split_space_cells by (apply plain_segment_cols; exact Hp).
  reflexivity.
Qed.

Lemma str_float2_not_na (q : Q) : String.eqb (str_float2 q) "<NA>" = false.
Proof.
  destruct (String.eqb_spec (str_float2 q) "<NA>") as [ Heq | ];
    [ | reflexivity ].
  pose proof (py_float_str_float2 q) as H. rewrite Heq in H.
  vm_compute in H. discriminate H.
Qed.

Lemma str_int_not_na (z : Z) : String.eqb (str_int z) "<NA>" = false.
Proof.
  destruct (String.eqb_spec (str_int z) "<NA>") as [ Heq | ];
    [ | reflexivity ].
  pose proof (py_int_str_int z) as H. rewrite Heq in H.
  vm_compute in H. discriminate H.
Qed.

(** The row printed for a segment, read by [from_rttm]. *)
Lemma rttm_row_print_segment (seg : Segment) :
  plain_segment seg = true ->
  rttm_row (print_segment " " seg) = Ok (read_back seg).
Proof.
  intros Hp. unfold rttm_row. rewrite (split_print_segment seg Hp).
  simpl. rewrite !str_float2_not_na, str_int_not_na. simpl.
  rewrite !py_float_str_float2. simpl. rewrite py_int_str_int. simpl.
  unfold read_back, na_cell.
  destruct (seg_filename (data seg)) as [ f | ]; reflexivity.
Qed.

(** ** Files written by [write_rttm], read by [from_rttm] *)

Lemma one_line_app (s t : string) : one_line (s +:+ t) = one_line s && one_line t.
Proof.
  induction s as [ | a s IH ]; [ reflexivity | ].
  rewrite append_cons. simpl. rewrite IH, andb_assoc. reflexivity.
Qed.

Lemma plain_one_line (s : string) : plain s = true -> one_line s = true.
Proof.
  induction s as [ | a s IH ]; [ reflexivity | ]. simpl. intros H.
  apply andb_prop in H. destruct H as [Ha Hs].
  apply andb_prop in Ha. destruct Ha as [Ha _].
  apply andb_prop in Ha. destruct Ha as [_ Ha].
  rewrite Ha, (IH Hs). reflexivity.
Qed.

Lemma no_return_app (s t : string) :
  no_return (s +:+ t) = no_return s && no_return t.
Proof.
  induction s as [ | a s IH ]; [ reflexivity | ].
  rewrite append_cons. simpl. rewrite IH, andb_assoc. reflexivity.
Qed.

Lemma plain_no_return (s : string) : plain s = true -> no_return s = true.
Proof.
  induction s as [ | a s IH ]; [ reflexivity | ]. simpl. intros H.
  apply andb_prop in H. destruct H as [Ha Hs].
  apply andb_prop in Ha. destruct Ha as [_ Ha].
  rewrite Ha, (IH Hs). reflexivity.
Qed.

Lemma no_return_cells (cells : list string) :
  forallb plain cells = true ->
  no_return (concat_strings (map (fun t => t +:+ " ") cells)) = true.
Proof.
  induction cells as [ | t cells IH ]; intros Hp; [ reflexivity | ].
  simpl in Hp. apply andb_prop in Hp. destruct Hp as [Ht Hp].
  simpl map. simpl concat_strings.
  rewrite !no_return_app, (plain_no_return t Ht), (IH Hp). reflexivity.
Qed.

(** A text without carriage return is read as it stands. *)
Lemma universal_newlines_app (s t : string) :
  no_return s = true ->
  universal_newlines (s +:+ t) = s +:+ universal_newlines t.
Proof.
  induction s as [ | a s IH ]; intros Hs; [ reflexivity | ].
  simpl in Hs. apply andb_prop in Hs. destruct Hs as [Ha Hs].
  apply negb_true_iff in Ha.
  rewrite !append_cons. simpl universal_newlines. rewrite Ha.
  rewrite (IH Hs). reflexivity.
Qed.

Lemma universal_newlines_id (s : string) :
  no_return s = true -> universal_newlines s = s.
Proof.
  intros Hs. rewrite <- (append_empty_r s) at 1.
  rewrite (universal_newlines_app s "" Hs). apply append_empty_r.
Qed.

Lemma one_line_cells (cells : list string) :
  forallb plain cells = true ->
  one_line (concat_strings (map (fun t => t +:+ " ") cells)) = true.
Proof.
  induction cells as [ | t cells IH ]; intros Hp; [ reflexivity | ].
  simpl in Hp. apply andb_prop in Hp. destruct Hp as [Ht Hp].
  simpl map. simpl concat_strings.
  rewrite !one_line_app, (plain_one_line t Ht), (IH Hp). reflexivity.
Qed.

Lemma file_lines_go_line (s rest cur : string) :
  one_line s = true ->
  file_lines_go (s +:+ newline +:+ rest) cur
  = String.rev (String (ascii_of_nat 10) (String.rev_app s cur))
    :: file_lines_go rest "".
Proof.
  revert cur. induction s as [ | a s IH ]; intros cur Hs.
  - reflexivity.
  - simpl in Hs. apply andb_prop in Hs. destruct Hs as [Ha Hs].
    apply negb_true_iff in Ha.
    rewrite append_cons. simpl file_lines_go. rewrite Ha.
    rewrite IH by exact Hs. reflexivity.
Qed.

Lemma file_lines_line (s rest : string) :
  one_line s = true ->
  file_lines ((s +:+ newline) +:+ rest) = (s +:+ newline) :: file_lines rest.
Proof.
  intros Hs. unfold file_lines. rewrite append_assoc.
  rewrite file_lines_go_line by exact Hs. f_equal.
  unfold String.rev. simpl String.rev_app. rewrite rev_app_rev_app.
  reflexivity.
Qed.

Lemma file_lines_segments (tree : SpeakerAnnotation) :
  forallb plain_segment tree = true ->
  file_lines (concat_strings (map (print_segment " ") tree))
  = map (print_segment " ") tree.
Proof.
  induction tree as [ | seg tree IH ]; intros Hp; [ reflexivity | ].
  simpl in Hp. apply andb_prop in Hp. destruct Hp as [Hseg Hp].
  simpl map. simpl concat_strings. unfold print_segment at 1.
  rewrite file_lines_line.
  - rewrite (IH Hp). reflexivity.
  - rewrite print_col_text. apply one_line_cells, plain_segment_cols, Hseg.
Qed.

Lemma no_return_segments (tree : SpeakerAnnotation) :
  forallb plain_segment tree = true ->
  no_return (concat_strings (map (print_segment " ") tree)) = true.
Proof.
  induction tree as [ | seg tree IH ]; intros Hp; [ reflexivity | ].
  simpl in Hp. apply andb_prop in Hp. destruct Hp as [Hseg Hp].
  simpl map. simpl concat_strings. unfold print_segment at 1.
  rewrite !no_return_app, (IH Hp), print_col_text.
  rewrite (no_return_cells _ (plain_segment_cols seg Hseg)). reflexivity.
Qed.

Lemma from_rttm_rows_printed (tree acc : SpeakerAnnotation) :
  forallb plain_segment tree = true ->
  from_rttm_rows (map (print_segment " ") tree) acc
  = add_all (map read_back tree) acc.
Proof.
  revert acc. induction tree as [ | seg tree IH ]; intros acc Hp;
    [ reflexivity | ].
  simpl in Hp. apply andb_prop in Hp. destruct Hp as [Hseg Hp].
  simpl. rewrite (rttm_row_print_segment seg Hseg). simpl.
  destruct (tree_add acc (read_back seg)) as [ tree' | e ]; simpl;
    [ apply (IH tree' Hp) | reflexivity ].
Qed.

(** The file written for a list of segments, read back: the intervals
    that [read_back] makes of the rows are added one after the other. *)
Lemma from_rttm_written (tree : SpeakerAnnotation) :
  forallb plain_segment tree = true ->
  from_rttm (write_rttm tree) = add_all (map read_back tree) [].
Proof.
  intros Hp. unfold from_rttm, write_rttm, SpeakerAnnotation_str.
  rewrite append_empty_l.
  rewrite (universal_newlines_id _ (no_return_segments tree Hp)).
  rewrite (file_lines_segments tree Hp).
  apply from_rttm_rows_printed, Hp.
Qed.

Lemma add_all_In (segs : list Segment) (acc tree' : SpeakerAnnotation) :
  add_all segs acc = Ok tree' ->
  forall x, In x tree' -> In x acc \/ In x segs.
Proof.
  revert acc. induction segs as [ | seg segs IH ]; intros acc H x Hx.
  - simpl in H. injection H as <-. left. exact Hx.
  - simpl in H. unfold tree_add in H.
    destruct (existsb (Segment_eqb seg) acc).
    + simpl in H. destruct (IH acc H x Hx) as [ Ha | Hs ];
        [ left; exact Ha | right; right; exact Hs ].
    + destruct (Qle_bool (end_ seg) (begin seg)); [ discriminate H | ].
      simpl in H. destruct (IH (acc ++ [seg]) H x Hx) as [ Ha | Hs ].
      * apply in_app_or in Ha. destruct Ha as [ Ha | [ <- | [] ] ];
          [ left; exact Ha | right; left; reflexivity ].
      * right. right. exact Hs.
Qed.

(** After writing and reading back, no segment has a speaker label or a
    confidence: each is what [read_back] makes of a segment written. *)
Theorem rttm_round_trip_drops_labels (tree tree' : SpeakerAnnotation) :
  forallb plain_segment tree = true ->
  from_rttm (write_rttm tree) = Ok tree' ->
  forall seg', In seg' tree' ->
    name (data seg') = None /\ conf (data seg') = None
    /\ exists seg, In seg tree /\ seg' = read_back seg.
Proof.
  intros Hp Hread seg' Hin.
  rewrite (from_rttm_written tree Hp) in Hread.
  destruct (add_all_In _ _ _ Hread seg' Hin) as [ [] | Hs ].
  apply in_map_iff in Hs. destruct Hs as (seg & <- & Hseg).
  repeat split. exists seg. split; [ exact Hseg | reflexivity ].
Qed.

Lemma rttm_round_trip_drops_labels_witness :
  name (data (read_back (Build_Segment 1 2
                 (Build_SegmentData (Some "f") 1 (Some "A") None)))) = None
  /\ conf (data (read_back (Build_Segment 1 2
                   (Build_SegmentData (Some "f") 1 (Some "A") None)))) = None
  /\ exists seg,
       In seg rttm_example
       /\ read_back (Build_Segment 1 2
                       (Build_SegmentData (Some "f") 1 (Some "A") None))
          = read_back seg.
Proof.
  apply (rttm_round_trip_drops_labels rttm_example
           [read_back (Build_Segment 1 2
                         (Build_SegmentData (Some "f") 1 (Some "A") None))]).
  - reflexivity.
  - reflexivity.
  - left. reflexivity.
Defined.

(** The text [__str__] gives with its defaults (tab as separator, the
    header line first) cannot be read by [from_rttm], whatever the
    segments: the header line has no blank, stays one cell, and
    [row_split[3]] is an [IndexError].  Printed with the header and a
    blank as separator it cannot be read either: [float] fails on the
    header's ["tbeg"] with a [ValueError]. *)
Theorem from_rttm_header_fails (tree : SpeakerAnnotation) :
  from_rttm (SpeakerAnnotation_str tree tab true) = Raise IndexError
  /\ from_rttm (SpeakerAnnotation_str tree " " true) = Raise ValueError.
Proof.
  split; unfold from_rttm, SpeakerAnnotation_str;
    rewrite universal_newlines_app by reflexivity;
    rewrite file_lines_line by reflexivity; reflexivity.
Qed.

(** A row laid out as the header says is read as it was written: the
    begin to two decimals, the end as begin plus duration, the label. *)
Theorem from_rttm_header_row (fname speaker : string) (chnl : Z)
    (tbeg tdur : Q) :
  plain fname = true -> plain speaker = true ->
  (0 < round2 tdur)%Q ->
  from_rttm (header_row fname chnl tbeg tdur speaker)
  = Ok [Build_Segment (round2 tbeg) (round2 tbeg + round2 tdur)%Q
          (Build_SegmentData (na_cell fname) chnl (na_cell speaker) None)].
Proof.
  intros Hf Hs Hd.
  assert (Hcells : forallb plain
            ["SPEAKER"; fname; str_int chnl; str_float2 tbeg;
             str_float2 tdur; "<NA>"; "<NA>"; speaker] = true).
  { simpl. unfold str_int.
    rewrite Hf, Hs, plain_pretty, !plain_str_float2. reflexivity. }
  unfold from_rttm, header_row.
  rewrite universal_newlines_id.
  2:{ rewrite !no_return_app, (no_return_cells _ Hcells). reflexivity. }
  rewrite <- append_assoc. rewrite <- (append_empty_r (_ +:+ newline)).
  rewrite file_lines_line.
  2:{ rewrite one_line_app, (one_line_cells _ Hcells). reflexivity. }
  simpl file_lines. simpl from_rttm_rows. unfold rttm_row.
  rewrite append_assoc, (split_space_cells _ _ Hcells).
  simpl. rewrite !str_float2_not_na, str_int_not_na. simpl.
  rewrite !py_float_str_float2. simpl. rewrite py_int_str_int. simpl.
  unfold tree_add. simpl.
  destruct (Qle_bool (round2 tbeg + round2 tdur) (round2 tbeg)) eqn:Hnull.
  - exfalso. apply Qle_bool_iff in Hnull.
    apply (Qlt_irrefl (round2 tbeg)).
    apply Qlt_le_trans with (round2 tbeg + round2 tdur)%Q; [ | exact Hnull ].
    rewrite <- (Qplus_0_r (round2 tbeg)) at 1.
    apply Qplus_lt_r. exact Hd.
  - reflexivity.
Qed.

Lemma from_rttm_header_row_witness :
  from_rttm (header_row "f" 1 1 1 "A")
  = Ok [Build_Segment (round2 1) (round2 1 + round2 1)%Q
          (Build_SegmentData (na_cell "f") 1 (na_cell "A") None)].
Proof. apply (from_rttm_header_row "f" "A" 1 1 1); reflexivity. Defined.

(** ** What the interval store holds *)

Lemma Qeq_bool_sym (x y : Q) : Qeq_bool x y = Qeq_bool y x.
Proof.
  destruct (Qeq_bool x y) eqn:Hxy; destruct (Qeq_bool y x) eqn:Hyx;
    try reflexivity.
  - apply Qeq_bool_iff in Hxy. symmetry in Hxy. apply Qeq_bool_iff in Hxy.
    congruence.
  - apply Qeq_bool_iff in Hyx. symmetry in Hyx. apply Qeq_bool_iff in Hyx.
    congruence.
Qed.

Lemma option_eqb_sym {A : Type} (eqb : A -> A -> bool) (a b : option A) :
  (forall x y, eqb x y = eqb y x) -> option_eqb eqb a b = option_eqb eqb b a.
Proof. intros H. destruct a, b; simpl; auto. Qed.

Lemma Segment_eqb_sym (a b : Segment) : Segment_eqb a b = Segment_eqb b a.
Proof.
  unfold Segment_eqb, SegmentData_eqb.
  rewrite (Qeq_bool_sym (begin a)), (Qeq_bool_sym (end_ a)).
  rewrite (option_eqb_sym String.eqb (seg_filename (data a)))
    by apply String.eqb_sym.
  rewrite (Z.eqb_sym (channel (data a))).
  rewrite (option_eqb_sym String.eqb (name (data a))) by apply String.eqb_sym.
  rewrite (option_eqb_sym Qeq_bool (conf (data a))) by apply Qeq_bool_sym.
  reflexivity.
Qed.

Lemma distinct_snoc (tree : SpeakerAnnotation) (iv : Segment) :
  distinct tree = true -> existsb (Segment_eqb iv) tree = false ->
  distinct (tree ++ [iv]) = true.
Proof.
  induction tree as [ | seg tree IH ]; intros Hd Hnew; [ reflexivity | ].
  simpl in Hd, Hnew. apply andb_prop in Hd. destruct Hd as [Hseg Hd].
  apply orb_false_elim in Hnew. destruct Hnew as [Hne Hnew].
  simpl. rewrite existsb_app. simpl.
  apply negb_true_iff in Hseg. rewrite Hseg, (Segment_eqb_sym seg iv), Hne.
  simpl. apply IH; assumption.
Qed.

Lemma tree_add_valid (tree tree' : SpeakerAnnotation) (iv : Segment) :
  tree_add tree iv = Ok tree' -> valid_tree tree -> valid_tree tree'.
Proof.
  unfold tree_add. intros H [Hnull Hd].
  destruct (existsb (Segment_eqb iv) tree) eqn:Hex.
  - injection H as <-. split; assumption.
  - destruct (Qle_bool (end_ iv) (begin iv)) eqn:Hle; [ discriminate H | ].
    injection H as <-. split.
    + intros seg Hin. apply in_app_or in Hin.
      destruct Hin as [ Hin | [ <- | [] ] ]; [ apply Hnull, Hin | ].
      apply Qnot_le_lt. intros Hc. apply Qle_bool_iff in Hc. congruence.
    + apply distinct_snoc; assumption.
Qed.

Lemma valid_tree_nil : valid_tree [].
Proof. split; [ intros seg [] | reflexivity ]. Qed.

Lemma Segment_eqb_bounds (a b : Segment) :
  Segment_eqb a b = true -> (begin a == begin b)%Q /\ (end_ a == end_ b)%Q.
Proof.
  unfold Segment_eqb. intros H. apply andb_prop in H. destruct H as [H _].
  apply andb_prop in H. destruct H as [Hb He].
  split; apply Qeq_bool_iff; assumption.
Qed.

Lemma add_all_ok_iff (segs : list Segment) (acc : SpeakerAnnotation) :
  valid_tree acc ->
  (is_ok (add_all segs acc) = true
   <-> forall seg, In seg segs -> (begin seg < end_ seg)%Q).
Proof.
  revert acc. induction segs as [ | seg segs IH ]; intros acc Hv.
  - simpl. split; [ intros _ seg [] | reflexivity ].
  - simpl. destruct (tree_add acc seg) as [ acc' | e ] eqn:Hadd.
    + assert (Hseg : (begin seg < end_ seg)%Q).
      { unfold tree_add in Hadd.
        destruct (existsb (Segment_eqb seg) acc) eqn:Hex.
        - apply existsb_exists in Hex. destruct Hex as (x & Hx & Heq).
          apply Segment_eqb_bounds in Heq. destruct Heq as [Hb He].
          rewrite Hb, He. apply (proj1 Hv x Hx).
        - destruct (Qle_bool (end_ seg) (begin seg)) eqn:Hle;
            [ discriminate Hadd | ].
          apply Qnot_le_lt. intros Hc. apply Qle_bool_iff in Hc. congruence. }
      simpl. rewrite (IH acc' (tree_add_valid acc acc' seg Hadd Hv)).
      split.
      * intros H x [ <- | Hx ]; [ exact Hseg | apply H, Hx ].
      * intros H x Hx. apply H. right. exact Hx.
    + simpl. split; [ discriminate | ]. intros H. exfalso.
      unfold tree_add in Hadd.
      destruct (existsb (Segment_eqb seg) acc); [ discriminate Hadd | ].
      destruct (Qle_bool (end_ seg) (begin seg)) eqn:Hle;
        [ | discriminate Hadd ].
      apply Qle_bool_iff in Hle.
      apply (Qlt_irrefl (begin seg)).
      apply Qlt_le_trans with (end_ seg); [ apply H; left; reflexivity | exact Hle ].
Qed.

(** [from_pyannote] succeeds exactly when every track has [start < end]
    (an empty track is the [ValueError] of the interval store); every
    segment it stores is on channel 1, has the annotation's uri as file
    name, the text of a track's label as speaker, and no confidence. *)
Theorem from_pyannote_tracks (uri : option string)
    (tracks : list pyannote_track) :
  (is_ok (from_pyannote uri tracks) = true
   <-> forall tr, In tr tracks -> (track_start tr < track_end tr)%Q)
  /\ forall tree seg,
       from_pyannote uri tracks = Ok tree -> In seg tree ->
       exists tr,
         In tr tracks
         /\ seg = Build_Segment (track_start tr) (track_end tr)
                    (Build_SegmentData uri 1
                       (Some (str_label (track_label tr))) None).
Proof.
  split.
  - unfold from_pyannote. rewrite (add_all_ok_iff _ [] valid_tree_nil). split.
    + intros H tr Htr.
      apply (H (Build_Segment (track_start tr) (track_end tr)
                  (Build_SegmentData uri 1
                     (Some (str_label (track_label tr))) None))).
      apply in_map_iff. exists tr. split; [ reflexivity | exact Htr ].
    + intros H seg Hseg. apply in_map_iff in Hseg.
      destruct Hseg as (tr & <- & Htr). simpl. apply H, Htr.
  - intros tree seg H Hin. unfold from_pyannote in H.
    destruct (add_all_In _ _ _ H seg Hin) as [ [] | Hs ].
    apply in_map_iff in Hs. destruct Hs as (tr & <- & Htr).
    exists tr. split; [ exact Htr | reflexivity ].
Qed.

(** ** The round trip as a whole *)

Lemma add_all_keeps (segs : list Segment) (acc tree' : SpeakerAnnotation) :
  add_all segs acc = Ok tree' ->
  (forall x, In x acc -> In x tree')
  /\ forall seg, In seg segs ->
       exists x, In x tree' /\ Segment_eqb seg x = true.
Proof.
  revert acc. induction segs as [ | seg segs IH ]; intros acc H.
  - injection H as <-. split; [ auto | intros seg [] ].
  - simpl in H. destruct (tree_add acc seg) as [ acc' | e ] eqn:Hadd;
      [ | discriminate H ].
    simpl in H. destruct (IH acc' H) as [Hacc Hsegs].
    unfold tree_add in Hadd.
    destruct (existsb (Segment_eqb seg) acc) eqn:Hex.
    + injection Hadd as <-. split; [ exact Hacc | ].
      intros x [ <- | Hx ]; [ | apply Hsegs, Hx ].
      apply existsb_exists in Hex. destruct Hex as (y & Hy & Heq).
      exists y. split; [ apply Hacc, Hy | exact Heq ].
    + destruct (Qle_bool (end_ seg) (begin seg)); [ discriminate Hadd | ].
      injection Hadd as <-. split.
      * intros x Hx. apply Hacc, in_or_app. left. exact Hx.
      * intros x [ <- | Hx ]; [ | apply Hsegs, Hx ].
        exists seg. split.
        -- apply Hacc, in_or_app. right. left. reflexivity.
        -- unfold Segment_eqb, SegmentData_eqb.
           rewrite !Qeq_bool_refl, Z.eqb_refl.
           destruct (seg_filename (data seg)), (name (data seg)),
             (conf (data seg)); simpl;
             rewrite ?String.eqb_refl, ?Qeq_bool_refl; reflexivity.
Qed.

Lemma add_all_raises (segs : list Segment) (acc : SpeakerAnnotation) (e : exn) :
  add_all segs acc = Raise e -> e = ValueError.
Proof.
  revert acc. induction segs as [ | seg segs IH ]; intros acc H;
    [ discriminate H | ].
  simpl in H. destruct (tree_add acc seg) as [ acc' | e' ] eqn:Hadd.
  - apply (IH acc' H).
  - simpl in H. injection H as <-. unfold tree_add in Hadd.
    destruct (existsb (Segment_eqb seg) acc); [ discriminate Hadd | ].
    destruct (Qle_bool (end_ seg) (begin seg)); [ | discriminate Hadd ].
    injection Hadd as <-. reflexivity.
Qed.

Lemma round2_eq (p q : Q) : (round2 p == round2 q)%Q -> round2 p = round2 q.
Proof.
  unfold round2. intros H. apply Qred_complete.
  apply Qeq_trans with (Qred (round2_hundredths p # 100));
    [ symmetry; apply Qred_correct | ].
  apply Qeq_trans with (Qred (round2_hundredths q # 100));
    [ exact H | apply Qred_correct ].
Qed.

(** Two intervals read back that the store holds for equal are the same
    value. *)
Lemma read_back_eqb (a b : Segment) :
  Segment_eqb (read_back a) (read_back b) = true -> read_back a = read_back b.
Proof.
  unfold Segment_eqb, SegmentData_eqb, read_back. simpl. intros H.
  apply andb_prop in H. destruct H as [H Hd].
  apply andb_prop in H. destruct H as [Hb He].
  apply Qeq_bool_iff in Hb. apply Qeq_bool_iff in He.
  apply round2_eq in Hb. rewrite Hb in He |- *.
  assert (Hend : round2 (end_ a) = round2 (end_ b)).
  { apply round2_eq. lra. }
  rewrite Hend.
  apply andb_prop in Hd. destruct Hd as [Hd _].
  apply andb_prop in Hd. destruct Hd as [Hd _].
  apply andb_prop in Hd. destruct Hd as [Hf Hc].
  apply Z.eqb_eq in Hc. rewrite Hc.
  assert (Hname : match seg_filename (data a) with
                  | Some s => na_cell s | None => None end
                  = match seg_filename (data b) with
                    | Some s => na_cell s | None => None end).
  { destruct (match seg_filename (data a) with
              | Some s => na_cell s | None => None end) as [ x | ];
      destruct (match seg_filename (data b) with
                | Some s => na_cell s | None => None end) as [ y | ];
      simpl in Hf; try discriminate Hf; [ | reflexivity ].
    apply String.eqb_eq in Hf. rewrite Hf. reflexivity. }
  rewrite Hname. reflexivity.
Qed.

(** Writing a speaker annotation with [write_rttm] and reading the file
    back with [from_rttm], for file names and speaker labels without
    blank and without line end.  The reading succeeds exactly when every
    end, rounded to two decimals, is above zero (it is read as a
    duration); it fails with no other error than the [ValueError] of the
    interval store; and the intervals it stores are exactly what
    [read_back] makes of the segments written: the begin rounded, the end
    replaced by the sum of the two rounded bounds, file name and channel
    kept, speaker label and confidence gone.  Nothing is said of the
    order of the intervals. *)
Theorem from_rttm_write_rttm (tree : SpeakerAnnotation) :
  forallb plain_segment tree = true ->
  (is_ok (from_rttm (write_rttm tree)) = true
   <-> forall seg, In seg tree -> (0 < round2 (end_ seg))%Q)
  /\ (forall e, from_rttm (write_rttm tree) = Raise e -> e = ValueError)
  /\ forall tree',
       from_rttm (write_rttm tree) = Ok tree' ->
       forall seg',
         In seg' tree' <-> exists seg, In seg tree /\ seg' = read_back seg.
Proof.
  intros Hp. rewrite (from_rttm_written tree Hp). repeat split.
  - intros H seg Hseg.
    apply (proj1 (add_all_ok_iff _ [] valid_tree_nil)) with (seg := read_back seg)
      in H; [ | apply in_map, Hseg ].
    simpl in H. lra.
  - intros H. apply (add_all_ok_iff _ [] valid_tree_nil).
    intros x Hx. apply in_map_iff in Hx. destruct Hx as (seg & <- & Hseg).
    simpl. pose proof (H seg Hseg). lra.
  - apply add_all_raises.
  - intros Hin. destruct (add_all_In _ _ _ H seg' Hin) as [ [] | Hs ].
    apply in_map_iff in Hs. destruct Hs as (seg & <- & Hseg).
    exists seg. split; [ exact Hseg | reflexivity ].
  - intros (seg & Hseg & ->).
    destruct (add_all_keeps _ _ _ H) as [_ Hkept].
    destruct (Hkept (read_back seg) (in_map read_back tree seg Hseg))
      as (x & Hx & Heq).
    destruct (add_all_In _ _ _ H x Hx) as [ [] | Hs ].
    apply in_map_iff in Hs. destruct Hs as (seg2 & <- & _).
    rewrite (read_back_eqb seg seg2 Heq). exact Hx.
Qed.

Lemma from_rttm_write_rttm_witness :
  (is_ok (from_rttm (write_rttm rttm_example)) = true
   <-> forall seg, In seg rttm_example -> (0 < round2 (end_ seg))%Q)
  /\ (forall e, from_rttm (write_rttm rttm_example) = Raise e -> e = ValueError)
  /\ forall tree',
       from_rttm (write_rttm rttm_example) = Ok tree' ->
       forall seg',
         In seg' tree'
         <-> exists seg, In seg rttm_example /\ seg' = read_back seg.
Proof. apply (from_rttm_write_rttm rttm_example). reflexivity. Defined.

(** ** Records with fields missing *)

(** What a record that lacks fields loads to: a [VideoAnnotation] takes an
    empty list for each missing field; for [VoiceFeatures] a record
    without [frame] or [time] is a [TypeError], whatever else it holds,
    and only [pitch_f0] defaults to the empty list; for a
    [SentimentAnnotation] a record without [sentiment] is a [KeyError]. *)
Theorem loading_with_missing_fields (file : json_file) :
  VideoAnnotation.from_json file
  = Ok (VideoAnnotation.Build
          (default [] (json_load file !! "frame"))
          (default [] (json_load file !! "time"))
          (default [] (json_load file !! "face_box"))
          (default [] (json_load file !! "face_prob"))
          (default [] (json_load file !! "face_landmarks"))
          (default [] (json_load file !! "face_aus"))
          (default [] (json_load file !! "face_label"))
          (default [] (json_load file !! "face_confidence")))
  /\ VoiceFeatures.from_json file
     = match json_load file !! "frame", json_load file !! "time" with
       | Some f, Some tm =>
           Ok (VoiceFeatures.Build f tm
                 (default [] (json_load file !! "pitch_f0")))
       | _, _ => Raise TypeError
       end
  /\ (json_load file !! "sentiment" = None ->
      SentimentAnnotation.from_json file = Raise KeyError).
Proof.
  split; [ | split ].
  - apply VideoAnnotation_from_json_lookup.
  - apply VoiceFeatures_from_json_lookup.
  - intros H. rewrite SentimentAnnotation_from_json_lookup.
    rewrite H. reflexivity.
Qed.

Lemma default_field_is_empty (doc : json_record) (k : string) :
  doc !! k = None -> default [] (doc !! k) = [].
Proof. intros ->. reflexivity. Qed.

(** A [VideoAnnotation] loaded from a record that has frames but lacks
    one of the fields cannot be merged: the missing field is an empty
    array next to a non-empty [frame], and [merge_features] raises
    [ValueError]. *)
Theorem partial_video_record_fails_in_merge
    (file : json_file) (va : VideoAnnotation.t) (self : Multimodal)
    (k : string) (x : pyval) (l : list pyval) :
  VideoAnnotation.from_json file = Ok va ->
  In k VideoAnnotation.field_names ->
  json_load file !! k = None ->
  json_load file !! "frame" = Some (x :: l) ->
  video_annotation self = Some va ->
  merge_features self = Raise ValueError.
Proof.
  intros Hload Hk Hmiss Hframe Hva.
  pose proof (VideoAnnotation_from_json_lookup file) as Hdoc.
  rewrite Hdoc in Hload. injection Hload as <-.
  unfold merge_features, _merge_video_annotation. rewrite Hva.
  rewrite indexed_frame_mismatched; [ reflexivity | ].
  exists (x :: l), []. simpl. rewrite Hframe. simpl.
  split; [ left; reflexivity | ]. split; [ | discriminate ].
  simpl in Hk.
  destruct Hk as [ <- | [ <- | [ <- | [ <- | [ <- | [ <- | [ <- | [ <- | [] ] ] ] ] ] ] ] ];
    rewrite ?(default_field_is_empty (json_load file) _ Hmiss); try tauto.
  congruence.
Qed.

(** ** What [merge_features] changes and keeps *)

Lemma audio_text_appends (self : Multimodal) (dfs dfs' : list DataFrame) :
  _merge_audio_text_features self dfs = Ok dfs' ->
  exists l, dfs' = dfs ++ l.
Proof.
  unfold _merge_audio_text_features.
  destruct (audio_annotation_true self) as [ tree | ].
  - destruct (audio_text_features_df self tree) as [ df | e ]; simpl;
      [ | discriminate ].
    intros H. injection H as <-. exists [df]. reflexivity.
  - intros H. injection H as <-. exists []. rewrite app_nil_r. reflexivity.
Qed.

Lemma voice_appends (self : Multimodal) (dfs dfs' : list DataFrame) :
  _merge_voice_features self dfs = Ok dfs' ->
  exists l, dfs' = dfs ++ l.
Proof.
  unfold _merge_voice_features. destruct (voice_features self) as [ vf | ].
  - destruct (indexed_frame (VoiceFeatures.asdict_items vf)) as [ df | e ];
      simpl; [ | discriminate ].
    intros H. injection H as <-. exists [df]. reflexivity.
  - intros H. injection H as <-. exists []. rewrite app_nil_r. reflexivity.
Qed.

(** ** Video rows in the merged table *)

Lemma assoc_In (k : string) (d : list (string * list pyval)) (v : list pyval) :
  assoc k d = Ok v -> In v (map snd d).
Proof.
  induction d as [ | [k' v'] d IH ]; simpl; [ discriminate | ].
  destruct (String.eqb k k'); intros H.
  - injection H as <-. left. reflexivity.
  - right. apply IH, H.
Qed.

Lemma length_rows_of (n : nat) (cols : list (list pyval)) :
  length (rows_of n cols) = n.
Proof.
  revert cols. induction n as [ | n IH ]; intros cols; simpl;
    [ | rewrite IH ]; reflexivity.
Qed.

Lemma indexed_frame_keys (d : list (string * list pyval)) (df : DataFrame) :
  indexed_frame d = Ok df ->
  exists fr tm,
    assoc "frame" d = Ok fr /\ assoc "time" d = Ok tm
    /\ length fr = length tm
    /\ map fst (rows df) = zip fr tm.
Proof.
  unfold indexed_frame.
  destruct (all_same_length (map snd d)) eqn:Hall; [ | discriminate ].
  destruct (assoc "frame" d) as [ fr | e ] eqn:Hfr; [ | discriminate ].
  destruct (assoc "time" d) as [ tm | e ] eqn:Htm; [ | discriminate ].
  simpl. intros H. injection H as <-. exists fr, tm.
  assert (Hlen : length fr = length tm).
  { apply (all_same_length_spec _ Hall); eapply assoc_In; eassumption. }
  repeat split; try assumption. simpl.
  apply fst_zip. rewrite length_rows_of.
  unfold key. rewrite (length_zip_with pair fr tm). apply Nat.le_min_l.
Qed.

Lemma merge_features_video (self self' : Multimodal) (va : VideoAnnotation.t)
    (ret : option FlatFrame) :
  video_annotation self = Some va ->
  merge_features self = Ok (self', ret) ->
  exists df others,
    indexed_frame (VideoAnnotation.asdict_items va) = Ok df
    /\ ret = Some (reset_index (reduce_merge df others)).
Proof.
  intros Hva. unfold merge_features, _merge_video_annotation. rewrite Hva.
  destruct (indexed_frame (VideoAnnotation.asdict_items va)) as [ df | e ];
    [ | discriminate ].
  simpl.
  destruct (_merge_audio_text_features self [df]) as [ d2 | e ] eqn:H2;
    [ | discriminate ].
  simpl.
  destruct (_merge_voice_features self d2) as [ d3 | e ] eqn:H3;
    [ | discriminate ].
  simpl.
  destruct (audio_text_appends _ _ _ H2) as (l2 & ->).
  destruct (voice_appends _ _ _ H3) as (l3 & ->).
  simpl. intros H. injection H as _ <-.
  exists df, (l2 ++ l3). split; reflexivity.
Qed.

(** With a video annotation, a merge that succeeds keeps every frame of
    it and adds none: the [(frame, time)] pairs of the rows of the merged
    table are the pairs of the video annotation, whatever the other
    modalities hold. *)
Theorem merge_keeps_video_frames (self self' : Multimodal)
    (va : VideoAnnotation.t) (ret : option FlatFrame) :
  video_annotation self = Some va ->
  merge_features self = Ok (self', ret) ->
  exists table,
    ret = Some table
    /\ forall f t,
         In (f, t) (zip (VideoAnnotation.frame va) (VideoAnnotation.time va))
         <-> exists cells, In (f :: t :: cells) (flat_rows table).
Proof.
  intros Hva Hm.
  destruct (merge_features_video self self' va ret Hva Hm)
    as (df & others & Hdf & ->).
  eexists. split; [ reflexivity | ]. intros f t.
  destruct (indexed_frame_keys _ _ Hdf) as (fr & tm & Hfr & Htm & _ & Hkeys).
  simpl in Hfr, Htm. injection Hfr as <-. injection Htm as <-.
  rewrite <- Hkeys, <- (reduce_merge_keys others df (f, t)).
  simpl. split.
  - intros H. apply in_map_iff in H. destruct H as (r & Hk & Hin).
    destruct r as [k cells]. simpl in Hk. subst k.
    exists cells. apply in_map_iff.
    exists (f, t, cells). split; [ reflexivity | exact Hin ].
  - intros (cells & H). apply in_map_iff in H. destruct H as (r & Hrow & Hin).
    destruct r as [k cells']. destruct k as [f' t']. simpl in Hrow.
    injection Hrow as -> -> ->. apply in_map_iff.
    exists (f, t, cells). split; [ reflexivity | exact Hin ].
Qed.

Lemma merge_keeps_video_frames_witness :
  exists table,
    Some (Build_FlatFrame VideoAnnotation.field_names
            [[PInt 0; PFloat 0; PNaN; PNaN; PNaN; PNaN; PNaN; PNaN];
             [PInt 1; PFloat (1 # 30); PNaN; PNaN; PNaN; PNaN; PNaN; PNaN]])
    = Some table
    /\ forall f t,
         In (f, t) (zip (VideoAnnotation.frame two_frames)
                        (VideoAnnotation.time two_frames))
         <-> exists cells, In (f :: t :: cells) (flat_rows table).
Proof.
  apply (merge_keeps_video_frames video_only
           (set_features video_only
              (Some (Build_FlatFrame VideoAnnotation.field_names
                 [[PInt 0; PFloat 0; PNaN; PNaN; PNaN; PNaN; PNaN; PNaN];
                  [PInt 1; PFloat (1 # 30); PNaN; PNaN; PNaN; PNaN; PNaN;
                   PNaN]])))
           two_frames); reflexivity.
Defined.

(** ** Segment rows *)

Lemma audio_events_iff (tree : SpeakerAnnotation) (axis : list (Z * Q))
    (e : Z * Q * Segment) :
  In e (audio_events tree axis)
  <-> In (fst e) axis /\ In (snd e) tree
      /\ covers (begin (snd e)) (end_ (snd e)) (snd (fst e)) = true.
Proof.
  unfold audio_events. rewrite in_flat_map. split.
  - intros (it & Hit & He). apply in_map_iff in He.
    destruct He as (seg & <- & Hseg). unfold tree_at in Hseg.
    apply filter_In in Hseg. simpl. tauto.
  - intros (Hax & Hseg & Hcov). exists (fst e). split; [ exact Hax | ].
    apply in_map_iff. exists (snd e). split.
    + destruct e as [it seg]. reflexivity.
    + unfold tree_at. apply filter_In. split; assumption.
Qed.

(** With segments and no transcript, the audio step appends the table
    that has one row for every pair of an axis point and a segment
    covering it ([begin <= t < end]) and no other row: an instant without
    speaker gives no row, an instant with two speakers gives two. *)
Theorem segment_rows (self : Multimodal) (tree : SpeakerAnnotation)
    (axis : list (Z * Q)) (dfs : list DataFrame) :
  audio_annotation_true self = Some tree ->
  transcription_true self = None ->
  merge_axis self = Ok axis ->
  exists df,
    _merge_audio_text_features self dfs = Ok (dfs ++ [df])
    /\ columns df = ["segment_start"; "segment_end"; "segment_speaker_label"]
    /\ forall row,
         In row (rows df)
         <-> exists i t seg,
               In (i, t) axis /\ In seg tree
               /\ covers (begin seg) (end_ seg) t = true
               /\ row = segment_row i t seg.
Proof.
  intros Ha Htr Haxis. unfold _merge_audio_text_features.
  rewrite Ha. unfold audio_text_features_df. rewrite Haxis. simpl.
  rewrite audio_frame. simpl. rewrite Htr.
  eexists. split; [ reflexivity | ]. split; [ reflexivity | ].
  intros row. simpl. rewrite in_map_iff. split.
  - intros (e & <- & He). apply audio_events_iff in He.
    destruct e as [[i t] seg]. simpl in He.
    exists i, t, seg. repeat split; tauto.
  - intros (i & t & seg & Hax & Hseg & Hcov & ->).
    exists (i, t, seg). split; [ reflexivity | ].
    apply audio_events_iff. simpl. tauto.
Qed.

Lemma segment_rows_witness :
  exists df,
    _merge_audio_text_features
      (Multimodal_init "video.mp4" (Some 2%Q) (Some 1%Q) None None
         (Some [speaker_A]) None None None None) []
    = Ok ([] ++ [df])
    /\ columns df = ["segment_start"; "segment_end"; "segment_speaker_label"]
    /\ forall row,
         In row (rows df)
         <-> exists i t seg,
               In (i, t) [(0, 0%Q); (1, 1%Q)] /\ In seg [speaker_A]
               /\ covers (begin seg) (end_ seg) t = true
               /\ row = segment_row i t seg.
Proof.
  apply (segment_rows
           (Multimodal_init "video.mp4" (Some 2%Q) (Some 1%Q) None None
              (Some [speaker_A]) None None None None)
           [speaker_A] [(0, 0%Q); (1, 1%Q)] []); reflexivity.
Defined.

(** ** What the audio/text step does with a transcript *)

Lemma for_each_all_nil {A B : Type} (body : A -> result (list B)) (l : list A) :
  (forall a, In a l -> body a = Ok []) ->
  for_each body l = Ok (map (fun _ => []) l).
Proof.
  induction l as [ | a l IH ]; intros H; [ reflexivity | ].
  simpl. rewrite (H a) by (left; reflexivity). simpl.
  rewrite IH by (intros x Hx; apply H; right; exact Hx). reflexivity.
Qed.

Lemma concat_nils {A B : Type} (l : list A) :
  concat (map (fun _ : A => @nil B) l) = [].
Proof. induction l as [ | a l IH ]; simpl; [ | rewrite IH ]; reflexivity. Qed.

Lemma for_each_raises {A B : Type} (body : A -> result B) (l : list A)
    (a : A) (e : exn) :
  In a l -> body a = Raise e ->
  (forall x, In x l -> body x = Raise e \/ exists b, body x = Ok b) ->
  for_each body l = Raise e.
Proof.
  induction l as [ | x l IH ]; intros Hin Ha Hall; [ destruct Hin | ].
  simpl. destruct (Hall x (or_introl eq_refl)) as [ Hx | (b & Hx) ];
    rewrite Hx; [ reflexivity | ]. simpl.
  destruct Hin as [ -> | Hin ]; [ congruence | ].
  rewrite (IH Hin Ha) by (intros y Hy; apply Hall; right; exact Hy).
  reflexivity.
Qed.

Lemma sentiment_rows_of_pairs (it : Z * Q)
    (pairs : list (TranscriptSpan * Sentiment)) :
  for_each (sentiment_row it) pairs
  = match pairs with [] => Ok [] | _ :: _ => Raise AttributeError end.
Proof. destruct pairs; reflexivity. Qed.

Lemma contained_rows_raise (subs : list TranscriptSpan) (it : Z * Q) :
  subs <> [] -> contained_rows subs it = Raise AttributeError.
Proof. destruct subs; [ congruence | reflexivity ]. Qed.

Lemma flat_map_merge_row_empty (right : DataFrame)
    (l : list (key * list pyval)) :
  rows right = [] ->
  flat_map (merge_row right) l
  = map (fun r => (fst r, snd r ++ repeat PNaN (length (columns right)))) l.
Proof.
  intros Hr. induction l as [ | r l IH ]; [ reflexivity | ].
  simpl. rewrite IH. unfold merge_row, matching. rewrite Hr. reflexivity.
Qed.

Lemma transcription_true_nonempty (self : Multimodal) (tr : AudioTranscription) :
  transcription_true self = Some tr -> subtitles tr <> [].
Proof.
  unfold transcription_true. destruct (transcription self) as [ tr' | ];
    [ | discriminate ].
  destruct (subtitles tr') eqn:Hs; [ discriminate | ].
  intros H. injection H as <-. rewrite Hs. discriminate.
Qed.

(** The table the step builds when no row is appended to the text
    dictionary: the segment rows, with the six text columns missing. *)
Lemma blank_text_table (self : Multimodal) (tree : SpeakerAnnotation)
    (tr : AudioTranscription) (sa : SentimentAnnotation.t)
    (axis : list (Z * Q)) (dfs : list DataFrame) :
  audio_annotation_true self = Some tree ->
  transcription_true self = Some tr ->
  sentiment self = Some sa ->
  merge_axis self = Ok axis ->
  sentiment_events (subtitles tr) (SentimentAnnotation.sentiment sa) axis
  = Ok [] ->
  exists df,
    _merge_audio_text_features self dfs = Ok (dfs ++ [df])
    /\ rows df
       = map (fun e : Z * Q * Segment =>
                ((PInt (fst (fst e)), PFloat (snd (fst e))),
                 [PFloat (begin (snd e)); PFloat (end_ (snd e));
                  name_cell (name (data (snd e)));
                  PNaN; PNaN; PNaN; PNaN; PNaN; PNaN]))
             (audio_events tree axis).
Proof.
  intros Ha Htr Hsent Haxis Hev.
  unfold _merge_audio_text_features. rewrite Ha.
  unfold audio_text_features_df. rewrite Haxis. simpl. rewrite Htr.
  unfold text_features_dict. rewrite Hsent, Hev. simpl.
  rewrite audio_frame. simpl.
  eexists. split; [ reflexivity | ].
  simpl. rewrite flat_map_merge_row_empty by reflexivity.
  rewrite map_map. reflexivity.
Qed.

(** ** Sentiment lists *)

Lemma sentiment_events_nil (subs : list TranscriptSpan) (axis : list (Z * Q)) :
  sentiment_events subs [] axis = Ok [].
Proof.
  unfold sentiment_events. rewrite for_each_all_nil.
  - rewrite concat_nils. reflexivity.
  - intros it _. rewrite sentiment_rows_of_pairs.
    destruct (subtitles_at subs (snd it)); reflexivity.
Qed.

(** With an empty sentiment list (a [SentimentAnnotation] as its
    constructor makes it) the transcript is lost without an error: [zip]
    pairs nothing, and every segment row of the table has its three span
    columns and three score columns missing ([nan]). *)
Theorem empty_sentiment_blanks_transcript
    (self : Multimodal) (tree : SpeakerAnnotation) (tr : AudioTranscription)
    (axis : list (Z * Q)) (dfs : list DataFrame) :
  audio_annotation_true self = Some tree ->
  transcription_true self = Some tr ->
  sentiment self = Some (SentimentAnnotation.Build []) ->
  merge_axis self = Ok axis ->
  exists df,
    _merge_audio_text_features self dfs = Ok (dfs ++ [df])
    /\ rows df
       = map (fun e : Z * Q * Segment =>
                ((PInt (fst (fst e)), PFloat (snd (fst e))),
                 [PFloat (begin (snd e)); PFloat (end_ (snd e));
                  name_cell (name (data (snd e)));
                  PNaN; PNaN; PNaN; PNaN; PNaN; PNaN]))
             (audio_events tree axis).
Proof.
  intros Ha Htr Hsent Haxis.
  apply (blank_text_table self tree tr (SentimentAnnotation.Build []) axis dfs);
    try assumption.
  apply sentiment_events_nil.
Qed.

Lemma empty_sentiment_blanks_transcript_witness :
  exists df,
    _merge_audio_text_features
      (Multimodal_init "video.mp4" (Some 1%Q) (Some 1%Q) None None
         (Some [speaker_A]) None
         (Some (Build_AudioTranscription "video.srt" [hello_span]))
         (Some (SentimentAnnotation.Build [])) None) []
    = Ok ([] ++ [df])
    /\ rows df
       = map (fun e : Z * Q * Segment =>
                ((PInt (fst (fst e)), PFloat (snd (fst e))),
                 [PFloat (begin (snd e)); PFloat (end_ (snd e));
                  name_cell (name (data (snd e)));
                  PNaN; PNaN; PNaN; PNaN; PNaN; PNaN]))
             (audio_events [speaker_A] [(0, 0%Q)]).
Proof.
  apply (empty_sentiment_blanks_transcript
           (Multimodal_init "video.mp4" (Some 1%Q) (Some 1%Q) None None
              (Some [speaker_A]) None
              (Some (Build_AudioTranscription "video.srt" [hello_span]))
              (Some (SentimentAnnotation.Build [])) None)
           [speaker_A]
           (Build_AudioTranscription "video.srt" [hello_span])
           [(0, 0%Q)] []); reflexivity.
Defined.

(** With a sentiment annotation, the step succeeds as long as no axis
    point is covered by a span: nothing is paired, no span is read, and
    every segment row has the six text columns missing ([nan]). *)
Theorem uncovered_axis_blanks_transcript
    (self : Multimodal) (tree : SpeakerAnnotation) (tr : AudioTranscription)
    (sa : SentimentAnnotation.t) (axis : list (Z * Q)) (dfs : list DataFrame) :
  audio_annotation_true self = Some tree ->
  transcription_true self = Some tr ->
  sentiment self = Some sa ->
  merge_axis self = Ok axis ->
  (forall it, In it axis -> subtitles_at (subtitles tr) (snd it) = []) ->
  exists df,
    _merge_audio_text_features self dfs = Ok (dfs ++ [df])
    /\ rows df
       = map (fun e : Z * Q * Segment =>
                ((PInt (fst (fst e)), PFloat (snd (fst e))),
                 [PFloat (begin (snd e)); PFloat (end_ (snd e));
                  name_cell (name (data (snd e)));
                  PNaN; PNaN; PNaN; PNaN; PNaN; PNaN]))
             (audio_events tree axis).
Proof.
  intros Ha Htr Hsent Haxis Hnone.
  apply (blank_text_table self tree tr sa axis dfs); try assumption.
  unfold sentiment_events. rewrite for_each_all_nil.
  - rewrite concat_nils. reflexivity.
  - intros it Hit. rewrite (Hnone it Hit). reflexivity.
Qed.

(** With a sentiment annotation that is not empty, one axis point covered
    by a span is enough for the step to fail: the pair that [zip] forms
    there is read through [span.start], which an interval of the
    transcript does not have, and the step raises [AttributeError]. *)
Theorem covered_sentiment_point_raises
    (self : Multimodal) (tree : SpeakerAnnotation) (tr : AudioTranscription)
    (sa : SentimentAnnotation.t) (axis : list (Z * Q)) (dfs : list DataFrame)
    (it : Z * Q) :
  audio_annotation_true self = Some tree ->
  transcription_true self = Some tr ->
  sentiment self = Some sa ->
  merge_axis self = Ok axis ->
  In it axis ->
  subtitles_at (subtitles tr) (snd it) <> [] ->
  SentimentAnnotation.sentiment sa <> [] ->
  _merge_audio_text_features self dfs = Raise AttributeError.
Proof.
  intros Ha Htr Hsent Haxis Hit Hcov Hsa.
  unfold _merge_audio_text_features. rewrite Ha.
  unfold audio_text_features_df. rewrite Haxis. simpl. rewrite Htr.
  unfold text_features_dict. rewrite Hsent. unfold sentiment_events.
  rewrite (for_each_raises _ axis it AttributeError Hit); [ reflexivity | | ].
  - rewrite sentiment_rows_of_pairs.
    destruct (subtitles_at (subtitles tr) (snd it)); [ congruence | ].
    destruct (SentimentAnnotation.sentiment sa); [ congruence | reflexivity ].
  - intros x _. rewrite sentiment_rows_of_pairs.
    destruct (zip _ _); [ right; eexists; reflexivity | left; reflexivity ].
Qed.

(** Without a sentiment annotation the step fails on every transcript
    that is not empty, as soon as the axis has a point: the containment
    test reads [span.start] of the first interval and raises
    [AttributeError]. *)
Theorem transcript_without_sentiment_raises
    (self : Multimodal) (tree : SpeakerAnnotation) (tr : AudioTranscription)
    (axis : list (Z * Q)) (dfs : list DataFrame) :
  audio_annotation_true self = Some tree ->
  transcription_true self = Some tr ->
  sentiment self = None ->
  merge_axis self = Ok axis ->
  axis <> [] ->
  _merge_audio_text_features self dfs = Raise AttributeError.
Proof.
  intros Ha Htr Hsent Haxis Hne.
  pose proof (transcription_true_nonempty self tr Htr) as Hsubs.
  unfold _merge_audio_text_features. rewrite Ha.
  unfold audio_text_features_df. rewrite Haxis. simpl. rewrite Htr.
  unfold text_features_dict. rewrite Hsent. unfold span_events.
  destruct axis as [ | it axis ]; [ congruence | ].
  simpl. rewrite (contained_rows_raise _ it Hsubs). reflexivity.
Qed.


Lemma uncovered_axis_blanks_transcript_witness :
  exists df,
    _merge_audio_text_features
      (Multimodal_init "video.mp4" (Some 1%Q) (Some 1%Q) None None
         (Some [speaker_A]) None
         (Some (Build_AudioTranscription "video.srt" [world_span]))
         (Some (SentimentAnnotation.Build [sent1])) None) []
    = Ok ([] ++ [df])
    /\ rows df
       = map (fun e : Z * Q * Segment =>
                ((PInt (fst (fst e)), PFloat (snd (fst e))),
                 [PFloat (begin (snd e)); PFloat (end_ (snd e));
                  name_cell (name (data (snd e)));
                  PNaN; PNaN; PNaN; PNaN; PNaN; PNaN]))
             (audio_events [speaker_A] [(0, 0%Q)]).
Proof.
  apply (uncovered_axis_blanks_transcript
           (Multimodal_init "video.mp4" (Some 1%Q) (Some 1%Q) None None
              (Some [speaker_A]) None
              (Some (Build_AudioTranscription "video.srt" [world_span]))
              (Some (SentimentAnnotation.Build [sent1])) None)
           [speaker_A]
           (Build_AudioTranscription "video.srt" [world_span])
           (SentimentAnnotation.Build [sent1])
           [(0, 0%Q)] []); try reflexivity.
  intros it [ <- | [] ]. reflexivity.
Defined.

Lemma covered_sentiment_point_raises_witness :
  _merge_audio_text_features one_sentence [] = Raise AttributeError.
Proof.
  apply (covered_sentiment_point_raises one_sentence [speaker_A]
           (Build_AudioTranscription "video.srt" [hello_span])
           (SentimentAnnotation.Build [sent0]) [(0, 0%Q)] [] (0, 0%Q));
    try reflexivity.
  - left. reflexivity.
  - discriminate.
  - discriminate.
Defined.

Lemma transcript_without_sentiment_raises_witness :
  _merge_audio_text_features segments_and_transcript [] = Raise AttributeError.
Proof.
  apply (transcript_without_sentiment_raises segments_and_transcript
           [speaker_A] (Build_AudioTranscription "video.srt" [hello_span])
           [(0, 0%Q); (1, 1%Q)] []); try reflexivity.
  discriminate.
Defined.

(** ** The inputs of the axes *)

(** With a speaker annotation and no video annotation, [merge_features]
    needs the duration and both frame rates: without [fps_adjusted] (which
    the constructor takes from [fps]) it raises [TypeError], with
    [fps_adjusted] zero [ZeroDivisionError], and with a frame rate but
    without [duration] or [fps] [TypeError]; it never falls back on a
    default. *)
Theorem merge_needs_axis_inputs (self : Multimodal) (tree : SpeakerAnnotation) :
  video_annotation self = None ->
  audio_annotation_true self = Some tree ->
  (fps_adjusted self = None -> merge_features self = Raise TypeError)
  /\ (forall fa, fps_adjusted self = Some fa -> (fa == 0)%Q ->
      merge_features self = Raise ZeroDivisionError)
  /\ (forall fa, fps_adjusted self = Some fa -> ~ (fa == 0)%Q ->
      duration self = None \/ fps self = None ->
      merge_features self = Raise TypeError).
Proof.
  intros Hv Ha.
  assert (Hstep : forall e, merge_axis self = Raise e ->
                            merge_features self = Raise e).
  { intros e He. unfold merge_features, _merge_video_annotation,
      _merge_audio_text_features, audio_text_features_df.
    rewrite Hv, Ha, He. reflexivity. }
  split; [ | split ].
  - intros Hfa. apply Hstep. unfold merge_axis. rewrite Hfa. reflexivity.
  - intros fa Hfa Hz. apply Hstep. unfold merge_axis. rewrite Hfa.
    apply Qeq_bool_iff in Hz. rewrite Hz. reflexivity.
  - intros fa Hfa Hnz Hmiss. apply Hstep. unfold merge_axis. rewrite Hfa.
    destruct (Qeq_bool fa 0) eqn:Hz.
    + apply Qeq_bool_iff in Hz. contradiction.
    + destruct Hmiss as [ Hd | Hf ].
      * rewrite Hd. reflexivity.
      * rewrite Hf. destruct (duration self); reflexivity.
Qed.

Lemma merge_needs_axis_inputs_witness :
  (fps_adjusted (speech_only (Some 2%Q) None None) = None ->
   merge_features (speech_only (Some 2%Q) None None) = Raise TypeError)
  /\ (forall fa,
        fps_adjusted (speech_only (Some 2%Q) None None) = Some fa ->
        (fa == 0)%Q ->
        merge_features (speech_only (Some 2%Q) None None)
        = Raise ZeroDivisionError)
  /\ (forall fa,
        fps_adjusted (speech_only (Some 2%Q) None None) = Some fa ->
        ~ (fa == 0)%Q ->
        duration (speech_only (Some 2%Q) None None) = None
        \/ fps (speech_only (Some 2%Q) None None) = None ->
        merge_features (speech_only (Some 2%Q) None None) = Raise TypeError).
Proof.
  apply (merge_needs_axis_inputs (speech_only (Some 2%Q) None None)
           [speaker_A]); reflexivity.
Defined.

(** ** The points of the axes *)

Lemma below_ceiling (i : nat) (x : Q) :
  (i < Z.to_nat (Qceiling x))%nat -> (inject_Z (Z.of_nat i) < x)%Q.
Proof.
  intros Hi.
  apply Qle_lt_trans with (inject_Z (Qceiling x - 1)); [ | apply Qceiling_lt ].
  rewrite <- Zle_Qle. lia.
Qed.

Lemma ceiling_pos (x : Q) : (0 < x)%Q -> (0 < Z.to_nat (Qceiling x))%nat.
Proof.
  intros Hx.
  assert (H : (0 < inject_Z (Qceiling x))%Q).
  { apply Qlt_le_trans with x; [ exact Hx | apply Qle_ceiling ]. }
  rewrite <- (Zlt_Qlt 0) in H. lia.
Qed.

Lemma wrap_int32_small (z : Z) :
  - 2 ^ 31 <= z < 2 ^ 31 -> wrap_int32 z = z.
Proof.
  intros Hz. unfold wrap_int32. rewrite Z.mod_small; lia.
Qed.

Lemma Qtruncate_step (k : Z) : Qtruncate (0 + inject_Z k) = k.
Proof.
  unfold Qtruncate. simpl. rewrite Z.quot_1_r. lia.
Qed.

(** For a whole adjusted frame rate [k >= 1] (and [duration * fps] within
    the 32-bit range) the frame axis is not empty and each of its entries
    is a multiple [i * k] of the adjusted frame rate that lies in
    [0 <= frame < duration * fps]. *)
Theorem frame_axis_points (duration fps : Q) (k : Z) :
  (0 < duration)%Q -> (0 < fps)%Q -> 1 <= k ->
  (duration * fps <= inject_Z (2 ^ 31))%Q ->
  frame_axis duration fps (inject_Z k) <> []
  /\ forall fr, In fr (frame_axis duration fps (inject_Z k)) ->
       0 <= fr /\ (inject_Z fr < duration * fps)%Q
       /\ exists i : nat, fr = Z.of_nat i * k.
Proof.
  intros Hd Hf Hk Hmax. unfold frame_axis, arange_int32, arange_len.
  assert (Hkq : (0 < inject_Z k)%Q) by (rewrite <- (Zlt_Qlt 0); lia).
  assert (Hstop : (0 < duration * fps)%Q)
    by (apply Qmult_lt_0_compat; assumption).
  assert (Hratio : ((duration * fps - 0) / inject_Z k
                    == duration * fps / inject_Z k)%Q).
  { field. intros H. rewrite H in Hkq. apply (Qlt_irrefl 0 Hkq). }
  split.
  - assert (Hx : (0 < (duration * fps - 0) / inject_Z k)%Q).
    { rewrite Hratio. apply Qlt_shift_div_l; [ exact Hkq | ].
      rewrite Qmult_0_l. exact Hstop. }
    pose proof (ceiling_pos _ Hx) as Hlen.
    destruct (Z.to_nat (Qceiling ((duration * fps - 0) / inject_Z k)))
      as [ | n ]; [ lia | simpl; discriminate ].
  - intros fr Hfr. apply in_map_iff in Hfr. destruct Hfr as (i & <- & Hi).
    apply in_seq in Hi. destruct Hi as [_ Hi]. simpl in Hi.
    apply below_ceiling in Hi. rewrite Hratio in Hi.
    assert (Hik : (inject_Z (Z.of_nat i * k) < duration * fps)%Q).
    { rewrite inject_Z_mult.
      apply (Qmult_lt_r _ _ (inject_Z k) Hkq) in Hi.
      assert (Hback : (duration * fps / inject_Z k * inject_Z k
                       == duration * fps)%Q).
      { field. intros H. rewrite H in Hkq. apply (Qlt_irrefl 0 Hkq). }
      rewrite Hback in Hi. exact Hi. }
    assert (Hbound : Z.of_nat i * k < 2 ^ 31).
    { rewrite Zlt_Qlt. apply Qlt_le_trans with (duration * fps)%Q; assumption. }
    rewrite Qtruncate_step.
    change (wrap_int32 (Qtruncate 0)) with 0.
    destruct i as [ | i ].
    + change (wrap_int32 (0 + Z.of_nat 0 * (wrap_int32 k - 0))) with 0.
      split; [ lia | ]. split; [ exact Hstop | ]. exists 0%nat. reflexivity.
    + assert (Hksmall : k < 2 ^ 31) by nia.
      rewrite (wrap_int32_small k) by lia.
      replace (0 + Z.of_nat (S i) * (k - 0)) with (Z.of_nat (S i) * k) by lia.
      rewrite wrap_int32_small by nia.
      split; [ nia | ]. split; [ exact Hik | ]. exists (S i). reflexivity.
Qed.

Lemma frame_axis_points_witness :
  frame_axis 5 30 (inject_Z 10) <> []
  /\ forall fr, In fr (frame_axis 5 30 (inject_Z 10)) ->
       0 <= fr /\ (inject_Z fr < 5 * 30)%Q
       /\ exists i : nat, fr = Z.of_nat i * 10.
Proof.
  apply (frame_axis_points 5 30 10); try reflexivity.
  - lia.
  - vm_compute. discriminate.
Defined.

(** ** A video annotation alone *)

Lemma flat_rows_of (n : nat) (fr tm : list pyval) (cols : list (list pyval)) :
  length fr = n -> length tm = n ->
  map (fun r : key * list pyval => fst (fst r) :: snd (fst r) :: snd r)
      (zip (zip fr tm) (rows_of n cols))
  = rows_of n (fr :: tm :: cols).
Proof.
  revert fr tm cols. induction n as [ | n IH ]; intros fr tm cols Hfr Htm.
  - destruct fr; [ reflexivity | discriminate Hfr ].
  - destruct fr as [ | f fr ]; [ discriminate Hfr | ].
    destruct tm as [ | t tm ]; [ discriminate Htm | ].
    simpl. f_equal. apply IH; simpl in *; lia.
Qed.

Lemma nth_rows_of (n i : nat) (cols : list (list pyval)) :
  (i < n)%nat ->
  nth i (rows_of n cols) [] = map (fun c => nth i c PNone) cols.
Proof.
  revert i cols. induction n as [ | n IH ]; intros i cols Hi; [ lia | ].
  destruct i as [ | i ]; simpl.
  - apply map_ext. intros [ | a c ]; reflexivity.
  - rewrite IH by lia. rewrite map_map. apply map_ext.
    intros [ | a c ]; [ destruct i | ]; reflexivity.
Qed.

Lemma all_same_length_intro (cols : list (list pyval)) (n : nat) :
  (forall c, In c cols -> length c = n) -> all_same_length cols = true.
Proof.
  intros H. destruct cols as [ | c cols ]; [ reflexivity | ]. simpl.
  apply forallb_forall. intros c' Hc'. apply Nat.eqb_eq.
  rewrite (H c) by (left; reflexivity). apply H. right. exact Hc'.
Qed.

(** A [Multimodal] that holds only a video annotation whose arrays all
    have [n] entries merges to the annotation itself, row by row: the
    table has the eight fields as columns and [n] rows, row [i] holding
    entry [i] of each array. *)
Theorem video_only_rows (self : Multimodal) (va : VideoAnnotation.t) (n : nat) :
  video_annotation self = Some va ->
  audio_annotation_true self = None ->
  voice_features self = None ->
  (forall c, In c (map snd (VideoAnnotation.asdict_items va)) -> length c = n) ->
  exists table,
    merge_features self = Ok (set_features self (Some table), Some table)
    /\ flat_columns table = VideoAnnotation.field_names
    /\ length (flat_rows table) = n
    /\ forall i, (i < n)%nat ->
         nth i (flat_rows table) []
         = map (fun c => nth i c PNone)
               (map snd (VideoAnnotation.asdict_items va)).
Proof.
  intros Hva Ha Hvf Hlen.
  unfold merge_features, _merge_video_annotation, _merge_audio_text_features,
    _merge_voice_features.
  rewrite Hva, Ha, Hvf. unfold indexed_frame.
  rewrite (all_same_length_intro _ n Hlen). simpl.
  eexists. split; [ reflexivity | ]. split; [ reflexivity | ].
  simpl in Hlen.
  assert (Hfr : length (VideoAnnotation.frame va) = n) by (apply Hlen; tauto).
  assert (Htm : length (VideoAnnotation.time va) = n) by (apply Hlen; tauto).
  simpl. rewrite Hfr, (flat_rows_of n _ _ _ Hfr Htm).
  split; [ apply length_rows_of | ].
  intros i Hi. rewrite (nth_rows_of n i _ Hi). reflexivity.
Qed.

Lemma video_only_rows_witness :
  exists table,
    merge_features video_only
    = Ok (set_features video_only (Some table), Some table)
    /\ flat_columns table = VideoAnnotation.field_names
    /\ length (flat_rows table) = 2%nat
    /\ forall i, (i < 2)%nat ->
         nth i (flat_rows table) []
         = map (fun c => nth i c PNone)
               (map snd (VideoAnnotation.asdict_items two_frames)).
Proof.
  apply (video_only_rows video_only two_frames 2); try reflexivity.
  intros c Hc. simpl in Hc.
  repeat (destruct Hc as [ <- | Hc ]; [ reflexivity | ]). destruct Hc.
Defined.

(** ** What survives the RTTM round trip *)

Lemma round_half_even_near (x : Q) :
  (x - (1 # 2) <= inject_Z (round_half_even x))%Q
  /\ (inject_Z (round_half_even x) <= x + (1 # 2))%Q.
Proof.
  unfold round_half_even.
  pose proof (Qfloor_le x) as Hlo. pose proof (Qlt_floor x) as Hhi.
  rewrite inject_Z_plus in Hhi. change (inject_Z 1) with 1%Q in Hhi.
  destruct (Qcompare_spec (x - inject_Z (Qfloor x)) (1 # 2)) as [ Heq | Hlt | Hgt ].
  - destruct (Z.even (Qfloor x)); rewrite ?inject_Z_plus;
      change (inject_Z 1) with 1%Q; split; lra.
  - split; lra.
  - rewrite inject_Z_plus. change (inject_Z 1) with 1%Q. split; lra.
Qed.

Lemma round2_near (q : Q) :
  (q - (1 # 200) <= round2 q)%Q /\ (round2 q <= q + (1 # 200))%Q.
Proof.
  unfold round2. rewrite Qred_correct. unfold round2_hundredths.
  destruct (round_half_even_near (q * 100)) as [Hlo Hhi].
  assert (Hh : (round_half_even (q * 100) # 100
                == inject_Z (round_half_even (q * 100)) / 100)%Q).
  { unfold Qeq, Qdiv, Qmult, Qinv, inject_Z. simpl. lia. }
  rewrite Hh. split.
  - apply Qle_shift_div_l; [ reflexivity | lra ].
  - apply Qle_shift_div_r; [ reflexivity | lra ].
Qed.

(** What the round trip does keep: every segment read back comes from a
    segment written, with the same channel and a begin within 0.005 of
    the original (the rounding to two decimals). *)
Theorem rttm_round_trip_keeps_begin (tree tree' : SpeakerAnnotation) :
  forallb plain_segment tree = true ->
  from_rttm (write_rttm tree) = Ok tree' ->
  forall seg', In seg' tree' ->
    exists seg,
      In seg tree
      /\ channel (data seg') = channel (data seg)
      /\ (begin seg - (1 # 200) <= begin seg')%Q
      /\ (begin seg' <= begin seg + (1 # 200))%Q.
Proof.
  intros Hp Hread seg' Hin.
  rewrite (from_rttm_written tree Hp) in Hread.
  destruct (add_all_In _ _ _ Hread seg' Hin) as [ [] | Hs ].
  apply in_map_iff in Hs. destruct Hs as (seg & <- & Hseg).
  exists seg. split; [ exact Hseg | ]. split; [ reflexivity | ].
  simpl. apply round2_near.
Qed.

Lemma rttm_round_trip_keeps_begin_witness :
  exists seg,
    In seg rttm_example
    /\ channel (data (read_back (Build_Segment 1 2
                        (Build_SegmentData (Some "f") 1 (Some "A") None))))
       = channel (data seg)
    /\ (begin seg - (1 # 200)
        <= begin (read_back (Build_Segment 1 2
                    (Build_SegmentData (Some "f") 1 (Some "A") None))))%Q
    /\ (begin (read_back (Build_Segment 1 2
                 (Build_SegmentData (Some "f") 1 (Some "A") None)))
        <= begin seg + (1 # 200))%Q.
Proof.
  apply (rttm_round_trip_keeps_begin rttm_example
           [read_back (Build_Segment 1 2
                         (Build_SegmentData (Some "f") 1 (Some "A") None))]).
  - reflexivity.
  - reflexivity.
  - left. reflexivity.
Defined.

Lemma partial_video_record_fails_in_merge_witness :
  merge_features with_short_time = Raise ValueError.
Proof.
  apply (partial_video_record_fails_in_merge short_time_doc short_time
           with_short_time "face_box" (PInt 0) [PInt 1]);
    try reflexivity.
  right. right. left. reflexivity.
Defined.
